(** * Blogspot admin panel: slug derivation, fetch outcomes, create and edit flows

  A shallow embedding of the pieces of the four pages that carry logic:
  - [generateSlug] of [src/app/admin/add/page.tsx] and
    [src/app/admin/edit/[id]/page.tsx];
  - [fetchPosts] of the listing page and [fetchPost] of the detail page;
  - [fetchPost] and [handleSubmit] of the edit page;
  - [uploadImage] and [handleSubmit] of the create page.

  Strings are Rocq strings read as sequences of codeUnit units U+0000..U+00FF
  (Latin-1); on that range [toLowerCase], the class [\s] and [trim] of
  ECMAScript are written out in full. *)

From Stdlib Require Import Bool NArith List Lia.
From Stdlib Require Import Ascii String.
From Stdlib Require Import Sorting.Sorted Sorting.Permutation.
From Stdlib Require Import Numbers.DecimalString.
From Stdlib Require Import PeanoNat.
Import ListNotations.

Local Open Scope bool_scope.
Local Open Scope string_scope.

(** ** ECMAScript string primitives used by the pages *)

Module JsString.

Definition codeUnit (c : ascii) : N := N_of_ascii c.

Definition inRange (lo hi : N) (c : ascii) : bool :=
  (N.leb lo (codeUnit c)) && (N.leb (codeUnit c) hi).

(** [String.prototype.toLowerCase] on one Latin-1 codeUnit unit: A..Z and
    U+00C0..U+00DE (without the multiplication sign U+00D7) move up by 32. *)
Definition lowerChar (c : ascii) : ascii :=
  if inRange 65 90 c || (inRange 192 222 c && negb (N.eqb (codeUnit c) 215))
  then ascii_of_N (codeUnit c + 32)
  else c.

Fixpoint toLowerCase (s : string) : string :=
  match s with
  | EmptyString => EmptyString
  | String c r => String (lowerChar c) (toLowerCase r)
  end.

(** The class [\s] (and the characters [trim] strips): TAB, LF, VT, FF, CR,
    SPACE and NO-BREAK SPACE are its members below U+0100. *)
Definition isWhiteSpace (c : ascii) : bool :=
  inRange 9 13 c || N.eqb (codeUnit c) 32 || N.eqb (codeUnit c) 160.

Definition isHyphen (c : ascii) : bool := N.eqb (codeUnit c) 45.

Definition isLower (c : ascii) : bool := inRange 97 122 c.
Definition isDigit (c : ascii) : bool := inRange 48 57 c.

(** [s.replace(/[^...]/g, "")]: every character outside the class [keep]
    is dropped. *)
Fixpoint removeOutside (keep : ascii -> bool) (s : string) : string :=
  match s with
  | EmptyString => EmptyString
  | String c r =>
      if keep c then String c (removeOutside keep r) else removeOutside keep r
  end.

(** [s.replace(/p+/g, r)]: every maximal run of characters of the class [p]
    becomes the single character [r].  [inRun] tells that the previous
    character belonged to the run being replaced. *)
Fixpoint replaceRunsFrom (p : ascii -> bool) (r : ascii) (inRun : bool)
         (s : string) : string :=
  match s with
  | EmptyString => EmptyString
  | String c t =>
      if p c then
        if inRun then replaceRunsFrom p r true t
        else String r (replaceRunsFrom p r true t)
      else String c (replaceRunsFrom p r false t)
  end.

Definition replaceRuns (p : ascii -> bool) (r : ascii) (s : string) : string :=
  replaceRunsFrom p r false s.

Fixpoint trimStart (s : string) : string :=
  match s with
  | EmptyString => EmptyString
  | String c r => if isWhiteSpace c then trimStart r else s
  end.

Fixpoint trimEnd (s : string) : string :=
  match s with
  | EmptyString => EmptyString
  | String c r =>
      match trimEnd r with
      | EmptyString => if isWhiteSpace c then EmptyString else String c EmptyString
      | t => String c t
      end
  end.

Definition trim (s : string) : string := trimEnd (trimStart s).

(** JavaScript truthiness of a string: only the empty string is falsy. *)
Definition truthy (s : string) : bool :=
  match s with EmptyString => false | String _ _ => true end.

(** [s.split(sep)] for a one-character separator: never the empty array. *)
Fixpoint split (sep : ascii) (s : string) : list string :=
  match s with
  | EmptyString => [EmptyString]
  | String c r =>
      if Ascii.eqb c sep then EmptyString :: split sep r
      else match split sep r with
           | h :: t => String c h :: t
           | [] => [String c EmptyString]
           end
  end.

(** [arr.pop()]: the last element, [None] for [undefined]. *)
Fixpoint pop (l : list string) : option string :=
  match l with
  | [] => None
  | [x] => Some x
  | _ :: t => pop t
  end.

(** [s.substring(n)]: the text from index [n] on. *)
Fixpoint substringFrom (n : nat) (s : string) : string :=
  match n, s with
  | O, _ => s
  | S _, EmptyString => EmptyString
  | S m, String _ r => substringFrom m r
  end.

(** A number inside a template literal: its decimal digits. *)
Definition decimal (n : N) : string := NilZero.string_of_uint (N.to_uint n).

(** [`${x}`] for a value that may be [undefined]. *)
Definition interpolate (o : option string) : string :=
  match o with Some s => s | None => "undefined" end.

Fixpoint allChars (p : ascii -> bool) (s : string) : bool :=
  match s with
  | EmptyString => true
  | String c r => p c && allChars p r
  end.

Definition firstChar (s : string) : option ascii :=
  match s with EmptyString => None | String c _ => Some c end.

Fixpoint lastChar (s : string) : option ascii :=
  match s with
  | EmptyString => None
  | String c EmptyString => Some c
  | String _ r => lastChar r
  end.

End JsString.

(** ** Slug derivation *)

Module Slug.
Import JsString.

(** The class [[a-z0-9 -]] whose complement the first [replace] removes. *)
Definition inSlugClass (c : ascii) : bool :=
  isLower c || isDigit c || N.eqb (codeUnit c) 32 || isHyphen c.

(** [generateSlug], the same text in the create and in the edit page. *)
Definition generateSlug (title : string) : string :=
  trim
    (replaceRuns isHyphen "-"
       (replaceRuns isWhiteSpace "-"
          (removeOutside inSlugClass (toLowerCase title)))).

(** The characters a slug may hold according to the specification. *)
Definition isSlugChar (c : ascii) : bool := isLower c || isDigit c || isHyphen c.

Definition isAlnum (c : ascii) : bool := isLower c || isDigit c.

(** No two neighbouring hyphens; with [afterHyphen] the string is read as
    the continuation of a text that ended in a hyphen. *)
Fixpoint noHyphenPairFrom (afterHyphen : bool) (s : string) : bool :=
  match s with
  | EmptyString => true
  | String c r =>
      if isHyphen c then negb afterHyphen && noHyphenPairFrom true r
      else noHyphenPairFrom false r
  end.

Definition noHyphenPair (s : string) : bool := noHyphenPairFrom false s.

Definition startsWithHyphen (s : string) : bool :=
  match firstChar s with Some c => isHyphen c | None => false end.

Definition endsWithHyphen (s : string) : bool :=
  match lastChar s with Some c => isHyphen c | None => false end.

(** The shape promised for slugs: lowercase letters, digits and single
    hyphens, none of them first or last. *)
Definition slugShaped (s : string) : bool :=
  allChars isSlugChar s && noHyphenPair s
  && negb (startsWithHyphen s) && negb (endsWithHyphen s).

(** What remains of a title after lowercasing and the removal of the
    characters outside the class: the text the hyphenation works on. *)
Definition retained (title : string) : string :=
  removeOutside inSlugClass (toLowerCase title).

End Slug.

(** ** Data model and the hosted data client *)

Module Data.

Inductive Status := Draft | Published.

Definition statusText (s : Status) : string :=
  match s with Draft => "draft" | Published => "published" end.

(** [interface BlogPost]; an optional field that is absent (or [null] in a
    row sent by the store) is [None]. *)
Record BlogPost := mkPost {
  id : string;
  title : string;
  content : string;
  excerpt : option string;
  image_url : option string;
  image_name : option string;
  slug : string;
  status : Status;
  created_at : string;
  updated_at : string
}.

(** A [File] chosen in the form: its name and its bytes. *)
Record File := mkFile { file_name : string; file_bytes : string }.

(** The error object of a table or storage answer. *)
Record ApiError := mkError { code : string; message : string }.

(** The pair [{ data, error }] a table request resolves to. *)
Record Reply (A : Type) := mkReply { data : option A; error : option ApiError }.
Arguments mkReply {A} _ _.
Arguments data {A} _.
Arguments error {A} _.

(** An awaited promise: resolved with a value, or rejected (the [await]
    throws). *)
Inductive Awaited (A : Type) :=
  | Resolved (a : A)
  | Rejected (reason : string).
Arguments Resolved {A} _.
Arguments Rejected {A} _.

(** A request built by [from(t).select(c).eq(k, v)....order(k, {ascending})
    .single()]. *)
Record Query := mkQuery {
  q_table : string;
  q_columns : string;
  q_eq : list (string * string);
  q_order : option (string * bool);
  q_limit : option nat;
  q_single : bool
  }.

Module Q.
Definition from (table : string) : Query :=
  mkQuery table "" [] None None false.
Definition select (columns : string) (q : Query) : Query :=
  mkQuery (q_table q) columns (q_eq q) (q_order q) (q_limit q) (q_single q).
Definition eq (column value : string) (q : Query) : Query :=
  mkQuery (q_table q) (q_columns q) (q_eq q ++ [(column, value)])
          (q_order q) (q_limit q) (q_single q).
Definition order (column : string) (ascending : bool) (q : Query) : Query :=
  mkQuery (q_table q) (q_columns q) (q_eq q) (Some (column, ascending))
          (q_limit q) (q_single q).
Definition single (q : Query) : Query :=
  mkQuery (q_table q) (q_columns q) (q_eq q) (q_order q) (q_limit q) true.
End Q.

(** The object literal given to [insert] and to [update]; [updated_at] is
    only sent by the edit page. *)
Record Fields := mkFields {
  f_title : string;
  f_content : string;
  f_excerpt : option string;
  f_image_url : option string;
  f_image_name : option string;
  f_slug : string;
  f_status : Status;
  f_updated_at : option string
  }.

(** What a handler does that can be seen from outside, in program order. *)
Inductive Event :=
  | PreventDefault
  | Alert (msg : string)
  | ConsoleError (label : string)
  | Navigate (path : string)
  | ResetFileInput
  | RowSelect (q : Query)
  | RowInsert (table : string) (row : Fields)
  | RowUpdate (table : string) (rowId : string) (row : Fields)
  | StorageUpload (bucket name : string) (file : File)
  | StorageRemove (bucket : string) (names : list string).

(** The requests among the events: what reaches the table or the object
    store. *)
Definition isRequest (e : Event) : bool :=
  match e with
  | RowSelect _ | RowInsert _ _ | RowUpdate _ _ _
  | StorageUpload _ _ _ | StorageRemove _ _ => true
  | _ => false
  end.

Definition requests (l : list Event) : list Event := filter isRequest l.

Definition isInsert (e : Event) : bool :=
  match e with RowInsert _ _ => true | _ => false end.
Definition isUpload (e : Event) : bool :=
  match e with StorageUpload _ _ _ => true | _ => false end.
Definition isUpdate (e : Event) : bool :=
  match e with RowUpdate _ _ _ => true | _ => false end.

Definition isRemove (e : Event) : bool :=
  match e with StorageRemove _ _ => true | _ => false end.
Definition isNavigate (e : Event) : bool :=
  match e with Navigate _ => true | _ => false end.

(** The fields of a row written by an event, insert or update. *)
Definition written (e : Event) : option Fields :=
  match e with
  | RowInsert _ row | RowUpdate _ _ row => Some row
  | _ => None
  end.

(** An update request among the events sends these two picture fields. *)
Definition sendsPicture (url name : option string) (e : Event) : Prop :=
  match e with
  | RowUpdate _ _ row => f_image_url row = url /\ f_image_name row = name
  | _ => True
  end.

(** The [supabase] handle together with the clock and the random source of
    the page: each field answers one kind of call. *)
Record Client := mkClient {
  selectMany : Query -> Awaited (Reply (list BlogPost));
  selectSingle : Query -> Awaited (Reply BlogPost);
  insertRow : string -> Fields -> Awaited (Reply (list BlogPost));
  updateRow : string -> string -> Fields -> Awaited (Reply (list BlogPost));
  storageUpload : string -> string -> File -> Awaited (option ApiError);
  storageRemove : string -> list string -> Awaited (option ApiError);
  getPublicUrl : string -> string -> string;
  dateNow : N;
  randomBase36 : string;
  isoNow : string
  }.

(** The result of a handler: the component state it leaves and the events
    it caused. *)
Record Run (S : Type) := mkRun { final : S; log : list Event }.
Arguments mkRun {S} _ _.
Arguments final {S} _.
Arguments log {S} _.

(** A table request failed: it resolved with an error, or was rejected. *)
Definition answerFailed {A : Type} (a : Awaited (Reply A)) : bool :=
  match a with
  | Resolved r => match error r with Some _ => true | None => false end
  | Rejected _ => true
  end.

Definition truthyOpt (o : option string) : bool :=
  match o with Some s => JsString.truthy s | None => false end.

(** [x || null] on an optional string. *)
Definition orNull (o : option string) : option string :=
  if truthyOpt o then o else None.

(** [x || ""] on an optional string. *)
Definition orEmpty (o : option string) : string :=
  match o with Some s => s | None => EmptyString end.

(** The picture fields of a written row: the URL is null or not empty, the
    name is null, or not empty, or the name of the selected file. *)
Definition pictureFrom (selected : option File) (row : Fields) : Prop :=
  orNull (f_image_url row) = f_image_url row
  /\ (orNull (f_image_name row) = f_image_name row
      \/ exists file, selected = Some file
                      /\ f_image_name row = Some (file_name file)).

End Data.

(** ** The table behind the client *)

Module Store.
Import Data.

(** Modelled from the spec: the hosted table API that answers the requests
    (section 6: equality filters, optional ordering by a column, optional
    limit).  A row query returns the rows that pass every equality filter,
    ordered by the requested column, cut at the limit. *)
Definition column (name : string) (p : BlogPost) : option string :=
  if String.eqb name "id" then Some (id p)
  else if String.eqb name "title" then Some (title p)
  else if String.eqb name "content" then Some (content p)
  else if String.eqb name "excerpt" then excerpt p
  else if String.eqb name "image_url" then image_url p
  else if String.eqb name "image_name" then image_name p
  else if String.eqb name "slug" then Some (slug p)
  else if String.eqb name "status" then Some (statusText (status p))
  else if String.eqb name "created_at" then Some (created_at p)
  else if String.eqb name "updated_at" then Some (updated_at p)
  else None.

(** Modelled from the spec: one equality filter holds of a row when the
    column has that text. *)
Definition passes (f : string * string) (p : BlogPost) : bool :=
  match column (fst f) p with
  | Some v => String.eqb v (snd f)
  | None => false
  end.

(** Modelled from the spec: the filters of a request are taken together. *)
Definition passesAll (fs : list (string * string)) (p : BlogPost) : bool :=
  forallb (fun f => passes f p) fs.

(** Modelled from the spec: the order asked for by [order(col, {ascending})].
    Timestamps are compared as the store prints them, in one fixed-width
    ISO-8601 form, where the order of the texts is the order in time. *)
Definition before (col : string) (ascending : bool) (a b : BlogPost) : bool :=
  let ka := orEmpty (column col a) in
  let kb := orEmpty (column col b) in
  if ascending then String.leb ka kb else String.leb kb ka.

(** Modelled from the spec: ordering is a stable insertion sort. *)
Fixpoint insertBy (le : BlogPost -> BlogPost -> bool) (x : BlogPost)
         (l : list BlogPost) : list BlogPost :=
  match l with
  | [] => [x]
  | y :: t => if le x y then x :: l else y :: insertBy le x t
  end.

(** The order relation decided by [le]. *)
Definition inOrder (le : BlogPost -> BlogPost -> bool) (a b : BlogPost) : Prop :=
  le a b = true.

(** Modelled from the spec: the rows of [l] put in the order [le]. *)
Definition sortBy (le : BlogPost -> BlogPost -> bool) (l : list BlogPost) :=
  fold_right (insertBy le) [] l.

(** Modelled from the spec: the rows a request selects from the table
    [rows]: those that pass the filters, ordered as asked, cut at the limit. *)
Definition runSelect (q : Query) (rows : list BlogPost) : list BlogPost :=
  let hits := filter (passesAll (q_eq q)) rows in
  let sorted := match q_order q with
                | Some (col, asc) => sortBy (before col asc) hits
                | None => hits
                end in
  match q_limit q with
  | Some n => firstn n sorted
  | None => sorted
  end.

(** Modelled from the spec: the answer to a row query over the table
    [rows], which never fails. *)
Definition answerMany (rows : list BlogPost) (q : Query)
  : Awaited (Reply (list BlogPost)) :=
  Resolved (mkReply (Some (runSelect q rows)) None).

(** Modelled from the spec: a request in the "exactly one row" mode
    (section 4.3).  When no row is selected the answer is the no-rows error,
    whose code PGRST116 is the one the detail page tests under its comment
    "No rows returned"; exactly one selected row is the answer itself; for
    several selected rows the answer is the error [ambiguous]. *)
Definition answerSingle (ambiguous : ApiError) (rows : list BlogPost) (q : Query)
  : Awaited (Reply BlogPost) :=
  match runSelect q rows with
  | [] => Resolved (mkReply None (Some (mkError "PGRST116" "no rows returned")))
  | [p] => Resolved (mkReply (Some p) None)
  | _ => Resolved (mkReply None (Some ambiguous))
  end.

End Store.

(** ** The listing page *)

Module Listing.
Import Data.

Record State := mkState { posts : list BlogPost; loading : bool }.

(** [useState([])] and [useState(true)]. *)
Definition initial : State := mkState [] true.

Definition fetchPostsQuery : Query :=
  Q.order "created_at" false
    (Q.eq "status" "published" (Q.select "*" (Q.from "blog_posts"))).

(** [fetchPosts]: the awaited answer either sets the posts ([data || []]) or
    is thrown to the [catch]; [finally] ends the loading state. *)
Definition fetchPosts (c : Client) (st : State) : Run State :=
  match selectMany c fetchPostsQuery with
  | Resolved r =>
      match error r with
      | Some _ =>
          mkRun (mkState (posts st) false)
                [RowSelect fetchPostsQuery; ConsoleError "Error fetching posts:"]
      | None =>
          mkRun (mkState (match data r with Some l => l | None => [] end) false)
                [RowSelect fetchPostsQuery]
      end
  | Rejected _ =>
      mkRun (mkState (posts st) false)
            [RowSelect fetchPostsQuery; ConsoleError "Error fetching posts:"]
  end.

(** A client in front of a table that holds [rows]; only row queries are
    answered by the table, the other calls are not used by this page. *)
Definition clientOver (rows : list BlogPost) : Client :=
  mkClient (Store.answerMany rows)
           (fun _ => Rejected "unused")
           (fun _ _ => Rejected "unused")
           (fun _ _ _ => Rejected "unused")
           (fun _ _ _ => Rejected "unused")
           (fun _ _ => Rejected "unused")
           (fun _ _ => EmptyString)
           0 EmptyString EmptyString.

Definition isPublished (p : BlogPost) : bool :=
  match status p with Published => true | Draft => false end.

(** [a] may stand before [b] in a newest-first listing. *)
Definition newestFirst (a b : BlogPost) : Prop :=
  String.leb (created_at b) (created_at a) = true.

End Listing.

(** ** The detail page *)

Module Detail.
Import Data.

Record State := mkState {
  post : option BlogPost;
  loading : bool;
  error : string
}.

Definition initial : State := mkState None true EmptyString.

Definition fetchPostQuery (slug : string) : Query :=
  Q.single
    (Q.eq "status" "published"
       (Q.eq "slug" slug (Q.select "*" (Q.from "blog_posts")))).

Definition noRowsCode : string := "PGRST116".

(** [fetchPost]: an error whose code is PGRST116 sets the not-found text and
    returns; any other error is thrown to the [catch], as is a rejected
    request; [finally] ends the loading state. *)
Definition fetchPost (c : Client) (slug : string) (st : State) : Run State :=
  let q := fetchPostQuery slug in
  match selectSingle c q with
  | Resolved r =>
      match Data.error r with
      | Some e =>
          if String.eqb (code e) noRowsCode
          then mkRun (mkState (post st) false "Blog post not found") [RowSelect q]
          else mkRun (mkState (post st) false "Error loading blog post")
                     [RowSelect q; ConsoleError "Error fetching post:"]
      | None => mkRun (mkState (data r) false (error st)) [RowSelect q]
      end
  | Rejected _ =>
      mkRun (mkState (post st) false "Error loading blog post")
            [RowSelect q; ConsoleError "Error fetching post:"]
  end.

(** What the component returns: the spinner, the error card with its
    heading, or the article. *)
Inductive View :=
| Spinner
| ErrorCard (heading : string)
| Article (p : BlogPost).

Definition render (st : State) : View :=
  if loading st then Spinner
  else match post st with
       | Some p =>
           if JsString.truthy (error st) then ErrorCard (error st) else Article p
       | None =>
           ErrorCard (if JsString.truthy (error st) then error st
                      else "Blog post not found")
       end.

(** The effect run at mount: [if (slug) fetchPost()]. *)
Definition mount (c : Client) (slug : string) (st : State) : Run State :=
  if JsString.truthy slug then fetchPost c slug st else mkRun st [].

(** The view once the effect run at mount has settled. *)
Definition loaded (c : Client) (slug : string) : View :=
  render (final (mount c slug initial)).

(** A client in front of a table that holds [rows]; [ambiguous] is the error
    the table gives when one row is asked for and several are selected. *)
Definition clientOver (ambiguous : ApiError) (rows : list BlogPost) : Client :=
  mkClient (Store.answerMany rows)
           (Store.answerSingle ambiguous rows)
           (fun _ _ => Rejected "unused")
           (fun _ _ _ => Rejected "unused")
           (fun _ _ _ => Rejected "unused")
           (fun _ _ => Rejected "unused")
           (fun _ _ => EmptyString)
           0 EmptyString EmptyString.

(** The row is a published post with this slug. *)
Definition publishedAs (slug : string) (p : BlogPost) : bool :=
  String.eqb (Data.slug p) slug
  && match status p with Published => true | Draft => false end.

End Detail.

(** ** The create page *)

Module AddPost.
Import Data.

Record State := mkState {
  title : string;
  content : string;
  excerpt : string;
  selectedFile : option File;
  status : Status;
  loading : bool
}.

Definition bucket : string := "blog-images".
Definition table : string := "blog_posts".

(** The name under which a file is stored: time, random suffix, extension. *)
Definition objectName (c : Client) (file : File) : string :=
  JsString.decimal (dateNow c) ++ "-"
  ++ JsString.substringFrom 2 (randomBase36 c) ++ "."
  ++ JsString.interpolate (JsString.pop (JsString.split "." (file_name file))).

(** [uploadImage]: the public URL, or [null] after the [catch] has logged
    and alerted. *)
Definition uploadImage (c : Client) (file : File) : option string * list Event :=
  let fileName := objectName c file in
  match storageUpload c bucket fileName file with
  | Resolved None =>
      (Some (getPublicUrl c bucket fileName), [StorageUpload bucket fileName file])
  | Resolved (Some _) | Rejected _ =>
      (None, [StorageUpload bucket fileName file;
              ConsoleError "Error uploading image:";
              Alert "Error uploading image!"])
  end.

Definition insertFields (st : State) (imageUrl imageName : option string) : Fields :=
  mkFields (JsString.trim (title st)) (JsString.trim (content st))
           (orNull (Some (JsString.trim (excerpt st))))
           imageUrl imageName
           (Slug.generateSlug (title st))
           (status st) None.

Definition setLoading (b : bool) (st : State) : State :=
  mkState (title st) (content st) (excerpt st) (selectedFile st) (status st) b.

Definition resetForm : State :=
  mkState EmptyString EmptyString EmptyString None Published false.

(** The part of [handleSubmit] from the slug on: the insert and what follows
    its answer.  [before] holds the events caused so far. *)
Definition insertPost (c : Client) (st : State) (imageUrl imageName : option string)
           (before : list Event) : Run State :=
  let row := insertFields st imageUrl imageName in
  match insertRow c table row with
  | Resolved r =>
      match error r with
      | Some e =>
          mkRun (setLoading false st)
                (before ++ [RowInsert table row; ConsoleError "Database error:";
                            Alert ("Error saving blog post: " ++ message e)])
      | None =>
          match data r with
          | Some (_ :: _) =>
              mkRun resetForm
                    (before ++ [RowInsert table row;
                                Alert "Blog post created successfully!";
                                ResetFileInput; Navigate "/admin"])
          | _ => mkRun (setLoading false st) (before ++ [RowInsert table row])
          end
      end
  | Rejected _ =>
      mkRun (setLoading false st)
            (before ++ [RowInsert table row;
                        ConsoleError "Error creating blog post:";
                        Alert "Unexpected error occurred!"])
  end.

Definition handleSubmit (c : Client) (st : State) : Run State :=
  if negb (JsString.truthy (JsString.trim (title st)))
     || negb (JsString.truthy (JsString.trim (content st)))
  then mkRun st [PreventDefault; Alert "Title and content are required!"]
  else
    match selectedFile st with
    | Some file =>
        let (imageUrl, evs) := uploadImage c file in
        if negb (truthyOpt imageUrl)
        then mkRun (setLoading false st) (PreventDefault :: evs)
        else insertPost c st imageUrl (Some (file_name file)) (PreventDefault :: evs)
    | None => insertPost c st None None [PreventDefault]
    end.

(** The [disabled] attribute of the submit button. *)
Definition submitDisabled (st : State) : bool :=
  loading st
  || negb (JsString.truthy (JsString.trim (title st)))
  || negb (JsString.truthy (JsString.trim (content st))).

(** The form passes the check of [handleSubmit]: title and content are not
    blank. *)
Definition accepted (st : State) : bool :=
  JsString.truthy (JsString.trim (title st))
  && JsString.truthy (JsString.trim (content st)).

(** The upload resolves without error and the store hands out a URL. *)
Definition uploadSucceeds (c : Client) (file : File) : bool :=
  truthyOpt (fst (uploadImage c file)).

(** What the user has entered: the five fields of the form. *)
Definition entered (st : State) : string * string * string * option File * Status :=
  (title st, content st, excerpt st, selectedFile st, status st).

(** The answer of the object store to the upload is a failure. *)
Definition uploadFails (c : Client) (file : File) : bool :=
  match storageUpload c bucket (objectName c file) file with
  | Resolved None => false
  | _ => true
  end.

End AddPost.

(** ** The edit page *)

Module EditPost.
Import Data.

Record State := mkState {
  post : option BlogPost;
  title : string;
  content : string;
  excerpt : string;
  selectedFile : option File;
  status : Status;
  loading : bool;
  updating : bool;
  error : string
}.

Definition initial : State :=
  mkState None EmptyString EmptyString EmptyString None Published true false
          EmptyString.

Definition bucket : string := "blog-images".
Definition table : string := "blog_posts".

Definition fetchPostQuery (postId : string) : Query :=
  Q.single (Q.eq "id" postId (Q.select "*" (Q.from "blog_posts"))).

Definition failed (st : State) (p : option BlogPost) : State :=
  mkState p (title st) (content st) (excerpt st) (selectedFile st) (status st)
          false (updating st) "Post not found".

(** [fetchPost]: any error is thrown to the [catch], which sets the one
    error text; a resolved answer without a row makes [data.title] throw
    after [setPost(data)]. *)
Definition fetchPost (c : Client) (postId : string) (st : State) : Run State :=
  let q := fetchPostQuery postId in
  match selectSingle c q with
  | Resolved r =>
      match Data.error r with
      | Some _ =>
          mkRun (failed st (post st)) [RowSelect q; ConsoleError "Error fetching post:"]
      | None =>
          match data r with
          | Some d =>
              mkRun (mkState (Some d) (Data.title d) (Data.content d)
                             (orEmpty (Data.excerpt d)) (selectedFile st)
                             (Data.status d) false (updating st) (error st))
                    [RowSelect q]
          | None =>
              mkRun (failed st None) [RowSelect q; ConsoleError "Error fetching post:"]
          end
      end
  | Rejected _ =>
      mkRun (failed st (post st)) [RowSelect q; ConsoleError "Error fetching post:"]
  end.

(** The answer to the row query is a failure: an error of any code, or a
    rejected request. *)
Definition fetchFailed (a : Awaited (Reply BlogPost)) : bool :=
  match a with
  | Resolved r => match Data.error r with Some _ => true | None => false end
  | Rejected _ => true
  end.

Inductive View :=
| Spinner
| Message (heading : string)
| Form (p : BlogPost).

Definition render (st : State) : View :=
  if loading st then Spinner
  else match post st with
       | Some p => if JsString.truthy (error st) then Message (error st) else Form p
       | None =>
           Message (if JsString.truthy (error st) then error st else "Post not found")
       end.

Definition objectName (c : Client) (file : File) : string :=
  JsString.decimal (dateNow c) ++ "-"
  ++ JsString.substringFrom 2 (randomBase36 c) ++ "."
  ++ JsString.interpolate (JsString.pop (JsString.split "." (file_name file))).

(** [uploadImage] of this page only logs in its [catch]. *)
Definition uploadImage (c : Client) (file : File) : option string * list Event :=
  let fileName := objectName c file in
  match storageUpload c bucket fileName file with
  | Resolved None =>
      (Some (getPublicUrl c bucket fileName), [StorageUpload bucket fileName file])
  | Resolved (Some _) | Rejected _ =>
      (None, [StorageUpload bucket fileName file;
              ConsoleError "Error uploading image:"])
  end.

(** [deleteOldImage]: the object named by the last path segment of the URL
    is removed when that segment is not empty; the answer is not looked at
    and a rejection is only logged. *)
Definition deleteOldImage (c : Client) (imageUrl : string) : list Event :=
  match JsString.pop (JsString.split "/" imageUrl) with
  | Some fileName =>
      if JsString.truthy fileName then
        match storageRemove c bucket [fileName] with
        | Resolved _ => [StorageRemove bucket [fileName]]
        | Rejected _ =>
            [StorageRemove bucket [fileName];
             ConsoleError "Error deleting old image:"]
        end
      else []
  | None => []
  end.

Definition postImageUrl (st : State) : option string :=
  match post st with Some p => image_url p | None => None end.

Definition postImageName (st : State) : option string :=
  match post st with Some p => image_name p | None => None end.

Definition updateFields (c : Client) (st : State)
           (imageUrl imageName : option string) : Fields :=
  mkFields (JsString.trim (title st)) (JsString.trim (content st))
           (orNull (Some (JsString.trim (excerpt st))))
           imageUrl imageName
           (Slug.generateSlug (title st))
           (status st) (Some (isoNow c)).

Definition setUpdating (b : bool) (st : State) : State :=
  mkState (post st) (title st) (content st) (excerpt st) (selectedFile st)
          (status st) (loading st) b (error st).

(** The part of [handleSubmit] from the slug on: the update and what follows
    its answer. *)
Definition updatePost (c : Client) (postId : string) (st : State)
           (imageUrl imageName : option string) (before : list Event) : Run State :=
  let row := updateFields c st imageUrl imageName in
  match updateRow c table postId row with
  | Resolved r =>
      match Data.error r with
      | Some e =>
          mkRun (setUpdating false st)
                (before ++ [RowUpdate table postId row;
                            ConsoleError "Database error:";
                            Alert ("Error updating post: " ++ message e)])
      | None =>
          mkRun (setUpdating false st)
                (before ++ [RowUpdate table postId row;
                            Alert "Post updated successfully!";
                            Navigate "/admin"])
      end
  | Rejected _ =>
      mkRun (setUpdating false st)
            (before ++ [RowUpdate table postId row;
                        ConsoleError "Error updating post:";
                        Alert "Unexpected error occurred!"])
  end.

Definition handleSubmit (c : Client) (postId : string) (st : State) : Run State :=
  if negb (JsString.truthy (JsString.trim (title st)))
     || negb (JsString.truthy (JsString.trim (content st)))
  then mkRun st [PreventDefault; Alert "Title and content are required!"]
  else
    match selectedFile st with
    | Some file =>
        let removed :=
          match postImageUrl st with
          | Some url => if JsString.truthy url then deleteOldImage c url else []
          | None => []
          end in
        let (imageUrl, evs) := uploadImage c file in
        if negb (truthyOpt imageUrl)
        then mkRun (setUpdating false st)
                   (PreventDefault :: removed ++ evs ++ [Alert "Error uploading image!"])
        else updatePost c postId st imageUrl (Some (file_name file))
                        (PreventDefault :: removed ++ evs)
    | None =>
        updatePost c postId st (orNull (postImageUrl st)) (orNull (postImageName st))
                   [PreventDefault]
    end.

(** The form accepts the submission: title and content are not blank. *)
Definition accepted (st : State) : bool :=
  JsString.truthy (JsString.trim (title st))
  && JsString.truthy (JsString.trim (content st)).

(** The [disabled] attribute of the submit button. *)
Definition submitDisabled (st : State) : bool :=
  updating st
  || negb (JsString.truthy (JsString.trim (title st)))
  || negb (JsString.truthy (JsString.trim (content st))).

(** The upload resolves without error and the store hands out a URL. *)
Definition uploadSucceeds (c : Client) (file : File) : bool :=
  truthyOpt (fst (uploadImage c file)).

End EditPost.

(** ** What the public pages display *)

Module Display.
Import Data.

Definition LF : ascii := "010"%char.

Fixpoint take (n : nat) (s : string) : string :=
  match n, s with
  | O, _ => EmptyString
  | S _, EmptyString => EmptyString
  | S m, String c r => String c (take m r)
  end.

(** [s.substring(start, end)] for two indices that are not negative: the
    indices are swapped when [start > end] and clamped to the length. *)
Definition substring (start stop : nat) (s : string) : string :=
  let lo := Nat.min start stop in
  let hi := Nat.max start stop in
  take (hi - lo) (JsString.substringFrom lo s).

(** [truncateText] of the listing page. *)
Definition truncateText (text : string) (maxLength : nat) : string :=
  if Nat.leb (String.length text) maxLength then text
  else substring 0 maxLength text ++ "...".

(** The preview of a card: [post.excerpt ? truncateText(post.excerpt, 120)
    : truncateText(post.content, 120)]. *)
Definition cardPreview (p : BlogPost) : string :=
  if truthyOpt (excerpt p) then truncateText (orEmpty (excerpt p)) 120
  else truncateText (content p) 120.

(** One card of the grid: the picture when [image_url] is truthy, the text
    handed to [formatDate], the title, the preview and the link. *)
Record Card := mkCard {
  card_key : string;
  card_image : option string;
  card_date : string;
  card_title : string;
  card_preview : string;
  card_href : string
}.

Definition card (p : BlogPost) : Card :=
  mkCard (id p) (orNull (image_url p)) (created_at p) (title p)
         (cardPreview p) ("/blog/" ++ slug p).

Inductive ListingView :=
| ListingSpinner
| NoPostsYet
| Grid (cards : list Card).

(** What [BlogPage] returns. *)
Definition renderListing (st : Listing.State) : ListingView :=
  if Listing.loading st then ListingSpinner
  else match Listing.posts st with
       | [] => NoPostsYet
       | l => Grid (map card l)
       end.

(** [formatContent]: [content.replace(/\n/g, "\n\n")]. *)
Fixpoint formatContent (content : string) : string :=
  match content with
  | EmptyString => EmptyString
  | String c r =>
      if Ascii.eqb c LF then String LF (String LF (formatContent r))
      else String c (formatContent r)
  end.

Definition notLF (c : ascii) : bool := negb (Ascii.eqb c LF).

(** The character is not the separator [sep]. *)
Definition isNot (sep c : ascii) : bool := negb (Ascii.eqb c sep).

Definition consHead (c : ascii) (l : list string) : list string :=
  match l with
  | h :: t => String c h :: t
  | [] => [String c EmptyString]
  end.

(** [s.split(sep)] for a separator of two characters [a] and [b]: the text is
    cut at each occurrence found from the left, occurrences do not overlap. *)
Fixpoint splitPair (a b : ascii) (s : string) : list string :=
  match s with
  | EmptyString => [EmptyString]
  | String c r =>
      match r with
      | String d r' =>
          if Ascii.eqb c a && Ascii.eqb d b then EmptyString :: splitPair a b r'
          else consHead c (splitPair a b r)
      | EmptyString => [String c EmptyString]
      end
  end.

(** The texts of the [<p>] elements of the article: the pieces of
    [formatContent(post.content).split("\n\n")], trimmed, without those whose
    trimmed text is empty. *)
Definition paragraphs (content : string) : list string :=
  filter JsString.truthy
         (map JsString.trim (splitPair LF LF (formatContent content))).

End Display.

(** ** Concrete posts, forms and clients used in the examples *)

Module Examples.
Import Data.

Definition january : BlogPost :=
  mkPost "1" "First" "One" None None None "first" Published
         "2024-01-01T00:00:00+00:00" "2024-01-01T00:00:00+00:00".

Definition february : BlogPost :=
  mkPost "2" "Second" "Two" None None None "second" Published
         "2024-02-01T00:00:00+00:00" "2024-02-01T00:00:00+00:00".

Definition sketch : BlogPost :=
  mkPost "3" "Third" "Three" None None None "third" Draft
         "2024-03-01T00:00:00+00:00" "2024-03-01T00:00:00+00:00".

(** A post with a stored picture. *)
Definition illustrated : BlogPost :=
  mkPost "7" "Trip" "Day one" None
         (Some "https://cdn.example/storage/v1/object/public/blog-images/old.png")
         (Some "holiday.png") "trip" Published
         "2024-01-01T00:00:00+00:00" "2024-01-01T00:00:00+00:00".

(** A row whose picture fields hold the empty text. *)
Definition blankPicture : BlogPost :=
  mkPost "8" "Note" "Text" None (Some EmptyString) (Some EmptyString) "note"
         Published "2024-01-01T00:00:00+00:00" "2024-01-01T00:00:00+00:00".

Definition photo : File := mkFile "new.jpg" "bytes".

Definition publicUrl (bucket name : string) : string :=
  "https://cdn.example/storage/v1/object/public/" ++ bucket ++ "/" ++ name.

(** Every request succeeds. *)
Definition obliging : Client :=
  mkClient (fun _ => Resolved (mkReply (Some [january]) None))
           (fun _ => Resolved (mkReply (Some illustrated) None))
           (fun _ _ => Resolved (mkReply (Some [january]) None))
           (fun _ _ _ => Resolved (mkReply (Some [illustrated]) None))
           (fun _ _ _ => Resolved None)
           (fun _ _ => Resolved None)
           publicUrl
           1700000000000 "0.4fzyo82mvyr" "2024-05-01T10:00:00.000Z".

(** As [obliging], but the object store refuses the upload. *)
Definition refusingUploads : Client :=
  mkClient (selectMany obliging) (selectSingle obliging)
           (insertRow obliging) (updateRow obliging)
           (fun _ _ _ => Resolved (Some (mkError "413" "Payload too large")))
           (storageRemove obliging) publicUrl
           (dateNow obliging) (randomBase36 obliging) (isoNow obliging).

(** As [obliging], but the row query is rejected before any answer. *)
Definition offline : Client :=
  mkClient (fun _ => Rejected "Failed to fetch")
           (fun _ => Rejected "Failed to fetch")
           (insertRow obliging) (updateRow obliging)
           (storageUpload obliging) (storageRemove obliging) publicUrl
           (dateNow obliging) (randomBase36 obliging) (isoNow obliging).

(** As [obliging], but the table answers the insert with an error. *)
Definition refusingInserts : Client :=
  mkClient (selectMany obliging) (selectSingle obliging)
           (fun _ _ => Resolved (mkReply None (Some (mkError "23505" "duplicate key"))))
           (updateRow obliging)
           (storageUpload obliging) (storageRemove obliging) publicUrl
           (dateNow obliging) (randomBase36 obliging) (isoNow obliging).

(** As [obliging], but the removal of an object is rejected. *)
Definition refusingRemovals : Client :=
  mkClient (selectMany obliging) (selectSingle obliging)
           (insertRow obliging) (updateRow obliging)
           (storageUpload obliging)
           (fun _ _ => Rejected "Failed to fetch") publicUrl
           (dateNow obliging) (randomBase36 obliging) (isoNow obliging).

(** A second published post with the slug of [illustrated]. *)
Definition namesake : BlogPost :=
  mkPost "10" "Trip!" "Day two" None None None "trip" Published
         "2024-06-01T00:00:00+00:00" "2024-06-01T00:00:00+00:00".

(** The error of a table asked for one row that selects several. *)
Definition severalRows : ApiError := mkError "several-rows" "more than one row".

Definition newPostNoPhoto : AddPost.State :=
  AddPost.mkState " Hello" "World" EmptyString None Published false.

(** A post whose stored picture URL ends in a slash. *)
Definition slashPicture : BlogPost :=
  mkPost "9" "Walk" "Hills" None (Some "https://cdn.example/pictures/")
         (Some "walk.png") "walk" Published
         "2024-01-01T00:00:00+00:00" "2024-01-01T00:00:00+00:00".

(** The edit form of [slashPicture] with a new picture chosen. *)
Definition replacingSlashPicture : EditPost.State :=
  EditPost.mkState (Some slashPicture) "Walk" "Hills" EmptyString (Some photo)
                   Published false false EmptyString.

(** The edit form of [illustrated] with a blank title. *)
Definition blankTitle : EditPost.State :=
  EditPost.mkState (Some illustrated) "  " "Day one" EmptyString (Some photo)
                   Published false false EmptyString.

Definition newPostWithPhoto : AddPost.State :=
  AddPost.mkState "Hello" "World" EmptyString (Some photo) Published false.

Definition newPostBlankContent : AddPost.State :=
  AddPost.mkState "Hello" "   " EmptyString (Some photo) Published false.

(** The edit form of [illustrated] with a new picture chosen. *)
Definition replacingPicture : EditPost.State :=
  EditPost.mkState (Some illustrated) "Trip" "Day one" EmptyString (Some photo)
                   Published false false EmptyString.

(** The edit form of [illustrated] with no new picture. *)
Definition keepingPicture : EditPost.State :=
  EditPost.mkState (Some illustrated) "Trip, again" "Day two" EmptyString None
                   Published false false EmptyString.

(** The edit form of [blankPicture] with no new picture. *)
Definition keepingBlankPicture : EditPost.State :=
  EditPost.mkState (Some blankPicture) "Note" "Text" EmptyString None
                   Published false false EmptyString.

End Examples.

Import JsString Slug.

(** ** Character facts, by enumeration of the 256 code units *)

Ltac each_char c :=
  destruct c as [[|] [|] [|] [|] [|] [|] [|] [|]]; vm_compute; try reflexivity;
  try discriminate; auto.

Lemma slugClass_not_space_is_slugChar (c : ascii) :
  inSlugClass c = true -> isWhiteSpace c = false -> isSlugChar c = true.
Proof. each_char c. Qed.

Lemma slugChar_not_space (c : ascii) : isSlugChar c = true -> isWhiteSpace c = false.
Proof. each_char c. Qed.

Lemma slugChar_lower_fixed (c : ascii) : isSlugChar c = true -> lowerChar c = c.
Proof. each_char c. Qed.

Lemma slugChar_in_class (c : ascii) : isSlugChar c = true -> inSlugClass c = true.
Proof. each_char c. Qed.

Lemma hyphen_unique (c : ascii) : isHyphen c = true -> c = "-"%char.
Proof. each_char c. Qed.

Lemma alnum_not_hyphen (c : ascii) : isAlnum c = true -> isHyphen c = false.
Proof. each_char c. Qed.

Lemma alnum_not_space (c : ascii) : isAlnum c = true -> isWhiteSpace c = false.
Proof. each_char c. Qed.

(** ** String facts *)

Lemma allChars_weaken (p q : ascii -> bool) (s : string) :
  (forall c, p c = true -> q c = true) -> allChars p s = true -> allChars q s = true.
Proof.
  intros Hpq; induction s as [|c r IH]; simpl; [reflexivity|].
  intros H; apply andb_true_iff in H as [Hc Hr].
  now rewrite (Hpq _ Hc), IH.
Qed.

Lemma removeOutside_all (keep : ascii -> bool) (s : string) :
  allChars keep (removeOutside keep s) = true.
Proof.
  induction s as [|c r IH]; simpl; [reflexivity|].
  destruct (keep c) eqn:E; simpl; [now rewrite E|exact IH].
Qed.

Lemma removeOutside_fixed (keep : ascii -> bool) (s : string) :
  allChars keep s = true -> removeOutside keep s = s.
Proof.
  induction s as [|c r IH]; simpl; [reflexivity|].
  intros H; apply andb_true_iff in H as [Hc Hr].
  now rewrite Hc, IH.
Qed.

Lemma replaceRunsFrom_all (p q q' : ascii -> bool) (r : ascii) (s : string) :
  q' r = true ->
  (forall c, q c = true -> p c = false -> q' c = true) ->
  allChars q s = true ->
  forall b, allChars q' (replaceRunsFrom p r b s) = true.
Proof.
  intros Hr Hstep; induction s as [|c t IH]; simpl; [reflexivity|].
  intros H b; apply andb_true_iff in H as [Hc Ht].
  destruct (p c) eqn:Ep.
  - destruct b; simpl; [|rewrite Hr]; now apply IH.
  - simpl. now rewrite (Hstep _ Hc Ep), IH.
Qed.

Lemma replaceRunsFrom_fixed_none (p : ascii -> bool) (r : ascii) (s : string) :
  allChars (fun c => negb (p c)) s = true ->
  forall b, replaceRunsFrom p r b s = s.
Proof.
  induction s as [|c t IH]; simpl; [reflexivity|].
  intros H b; apply andb_true_iff in H as [Hc Ht].
  apply negb_true_iff in Hc. now rewrite Hc, IH.
Qed.

Lemma hyphen_runs_noPair (s : string) :
  forall b, noHyphenPairFrom b (replaceRunsFrom isHyphen "-" b s) = true.
Proof.
  induction s as [|c t IH]; simpl; [reflexivity|]; intros b.
  destruct (isHyphen c) eqn:E.
  - destruct b; [apply IH|]. simpl. apply IH.
  - simpl. rewrite E. apply IH.
Qed.

Lemma hyphen_runs_fixed (s : string) :
  forall b, noHyphenPairFrom b s = true -> replaceRunsFrom isHyphen "-" b s = s.
Proof.
  induction s as [|c t IH]; simpl; [reflexivity|]; intros b H.
  destruct (isHyphen c) eqn:E.
  - apply andb_true_iff in H as [Hb Ht]. apply negb_true_iff in Hb; subst b.
    rewrite (hyphen_unique _ E). f_equal. now apply IH.
  - f_equal. now apply IH.
Qed.

Lemma trimStart_fixed (s : string) :
  allChars (fun c => negb (isWhiteSpace c)) s = true -> trimStart s = s.
Proof.
  destruct s as [|c r]; simpl; [reflexivity|].
  intros H; apply andb_true_iff in H as [Hc _].
  apply negb_true_iff in Hc. now rewrite Hc.
Qed.

Lemma trimEnd_fixed (s : string) :
  allChars (fun c => negb (isWhiteSpace c)) s = true -> trimEnd s = s.
Proof.
  induction s as [|c r IH]; simpl; [reflexivity|].
  intros H; apply andb_true_iff in H as [Hc Hr].
  apply negb_true_iff in Hc. rewrite (IH Hr), Hc. now destruct r.
Qed.

Lemma trim_fixed (s : string) :
  allChars (fun c => negb (isWhiteSpace c)) s = true -> trim s = s.
Proof.
  intros H. unfold trim. rewrite (trimStart_fixed _ H). now apply trimEnd_fixed.
Qed.

Lemma toLowerCase_fixed (s : string) :
  allChars isSlugChar s = true -> toLowerCase s = s.
Proof.
  induction s as [|c r IH]; simpl; [reflexivity|].
  intros H; apply andb_true_iff in H as [Hc Hr].
  now rewrite (slugChar_lower_fixed _ Hc), IH.
Qed.

(** The text handed to [trim] holds no white space: [trim] is the identity
  on it, whatever the title. *)
Lemma hyphenated_all_slugChar (s : string) :
  allChars isSlugChar
    (replaceRuns isHyphen "-" (replaceRuns isWhiteSpace "-" (retained s))) = true.
Proof.
  unfold replaceRuns.
  apply replaceRunsFrom_all with (q := isSlugChar); [reflexivity|auto|].
  apply replaceRunsFrom_all with (q := inSlugClass);
    [reflexivity|apply slugClass_not_space_is_slugChar|].
  apply removeOutside_all.
Qed.

Lemma generateSlug_unfold (title : string) :
  generateSlug title =
  replaceRuns isHyphen "-" (replaceRuns isWhiteSpace "-" (retained title)).
Proof.
  unfold generateSlug. apply trim_fixed.
  apply allChars_weaken with (p := isSlugChar).
  - intros c Hc. now rewrite (slugChar_not_space _ Hc).
  - apply hyphenated_all_slugChar.
Qed.

Lemma replaceRunsFrom_first (p : ascii -> bool) (r c : ascii) (s : string) (b : bool) :
  firstChar s = Some c -> p c = false ->
  firstChar (replaceRunsFrom p r b s) = Some c.
Proof.
  destruct s as [|d t]; simpl; [discriminate|].
  intros H Hp; injection H as ->. now rewrite Hp.
Qed.

Lemma lastChar_cons (x : ascii) (u : string) (c : ascii) :
  lastChar u = Some c -> lastChar (String x u) = Some c.
Proof. destruct u; simpl; [discriminate|auto]. Qed.

Lemma replaceRunsFrom_last (p : ascii -> bool) (r c : ascii) (s : string) :
  lastChar s = Some c -> p c = false ->
  forall b, lastChar (replaceRunsFrom p r b s) = Some c.
Proof.
  intros Hl Hp; induction s as [|d t IH]; [discriminate|].
  intros b. destruct t as [|e u].
  - simpl in Hl; injection Hl as ->. simpl. now rewrite Hp.
  - assert (Ht : lastChar (String e u) = Some c) by exact Hl.
    specialize (IH Ht).
    change (replaceRunsFrom p r b (String d (String e u)))
      with (if p d then
              if b then replaceRunsFrom p r true (String e u)
              else String r (replaceRunsFrom p r true (String e u))
            else String d (replaceRunsFrom p r false (String e u))).
    destruct (p d); [destruct b|]; auto using lastChar_cons.
Qed.

(** ** Slug derivation: shape, example and idempotence *)

Section SlugClaims.

(** C8.  The title ["Hello, World!  Foo"] (two spaces before [Foo]) has the
    slug ["hello-world-foo"]. *)
Theorem generateSlug_hello_world : generateSlug "Hello, World!  Foo" = "hello-world-foo".
Proof. reflexivity. Qed.

(** C1, as the code has it.  For every title the slug holds only lowercase
    letters, digits and hyphens and never two hyphens in a row; it does not
    begin (end) with a hyphen when the first (last) character of the title
    that survives the removal of the characters outside [[a-z0-9 -]] is a
    letter or a digit. *)
Theorem generateSlug_shape (title : string) :
  allChars isSlugChar (generateSlug title) = true
  /\ noHyphenPair (generateSlug title) = true
  /\ (forall c, firstChar (retained title) = Some c -> isAlnum c = true ->
                startsWithHyphen (generateSlug title) = false)
  /\ (forall c, lastChar (retained title) = Some c -> isAlnum c = true ->
                endsWithHyphen (generateSlug title) = false).
Proof.
  rewrite generateSlug_unfold. repeat split.
  - apply hyphenated_all_slugChar.
  - apply hyphen_runs_noPair.
  - intros c Hc Ha. unfold startsWithHyphen, replaceRuns.
    rewrite (replaceRunsFrom_first isHyphen _ c).
    + now apply alnum_not_hyphen.
    + apply replaceRunsFrom_first; [exact Hc|now apply alnum_not_space].
    + now apply alnum_not_hyphen.
  - intros c Hc Ha. unfold endsWithHyphen, replaceRuns.
    rewrite (replaceRunsFrom_last isHyphen _ c).
    + now apply alnum_not_hyphen.
    + apply replaceRunsFrom_last; [exact Hc|now apply alnum_not_space].
    + now apply alnum_not_hyphen.
Qed.

Lemma generateSlug_shape_witness :
  let slug := generateSlug "Hello, World!  Foo" in
  allChars isSlugChar slug = true /\ noHyphenPair slug = true
  /\ startsWithHyphen slug = false /\ endsWithHyphen slug = false.
Proof.
  destruct (generateSlug_shape "Hello, World!  Foo") as (H1 & H2 & H3 & H4).
  refine (conj H1 (conj H2 (conj _ _))).
  - apply (H3 "h"%char); reflexivity.
  - apply (H4 "o"%char); reflexivity.
Defined.

(** C1, as stated, fails: a title that begins with a hyphen keeps it, so the
    slug of ["-a"] is ["-a"], which is not slug-shaped. *)
Lemma generateSlug_keeps_leading_hyphen :
  generateSlug "-a" = "-a"
  /\ startsWithHyphen (generateSlug "-a") = true
  /\ slugShaped (generateSlug "-a") = false.
Proof. repeat split. Qed.

(** C9.  On a slug-shaped text (lowercase letters, digits, single hyphens,
    no hyphen first or last) the derivation changes nothing, hence it is
    idempotent there. *)
Theorem generateSlug_idempotent (t : string) :
  slugShaped t = true ->
  generateSlug t = t /\ generateSlug (generateSlug t) = generateSlug t.
Proof.
  intros H. unfold slugShaped in H.
  apply andb_true_iff in H as [H _]. apply andb_true_iff in H as [H _].
  apply andb_true_iff in H as [Hchars Hpair].
  assert (Hfix : generateSlug t = t).
  { rewrite generateSlug_unfold. unfold retained, replaceRuns.
    rewrite (toLowerCase_fixed _ Hchars).
    rewrite removeOutside_fixed
      by (apply allChars_weaken with (p := isSlugChar);
          [apply slugChar_in_class|exact Hchars]).
    rewrite (replaceRunsFrom_fixed_none isWhiteSpace).
    - now apply hyphen_runs_fixed.
    - apply allChars_weaken with (p := isSlugChar); [|exact Hchars].
      intros c Hc. now rewrite (slugChar_not_space _ Hc). }
  split; [exact Hfix|now rewrite !Hfix].
Qed.

Lemma generateSlug_idempotent_witness :
  generateSlug "hello-world-2" = "hello-world-2"
  /\ generateSlug (generateSlug "hello-world-2") = generateSlug "hello-world-2".
Proof. apply (generateSlug_idempotent "hello-world-2"). reflexivity. Defined.

End SlugClaims.

(** ** The listing page: what the table returns for its request *)

Section ListingClaims.
Import Data Store Listing.

Lemma passes_status_published (p : BlogPost) :
  passesAll [("status", "published")] p = isPublished p.
Proof. unfold passesAll, passes, isPublished; simpl. now destruct (status p). Qed.

Lemma insertBy_perm (le : BlogPost -> BlogPost -> bool) (x : BlogPost) (l : list BlogPost) :
  Permutation (insertBy le x l) (x :: l).
Proof.
  induction l as [|y t IH]; simpl; [reflexivity|].
  destruct (le x y); [reflexivity|].
  rewrite IH. apply perm_swap.
Qed.

Lemma sortBy_perm (le : BlogPost -> BlogPost -> bool) (l : list BlogPost) :
  Permutation (sortBy le l) l.
Proof.
  induction l as [|x t IH]; simpl; [reflexivity|].
  rewrite insertBy_perm. now constructor.
Qed.

Section Insertion.
Variable le : BlogPost -> BlogPost -> bool.
Hypothesis le_total : forall a b, le a b = false -> le b a = true.

Lemma insertBy_hd (a x : BlogPost) (l : list BlogPost) :
  (inOrder le) a x -> HdRel (inOrder le) a l -> HdRel (inOrder le) a (insertBy le x l).
Proof.
  intros Hax Hal. destruct l as [|y t]; simpl; [now constructor|].
  destruct (le x y); constructor; [exact Hax|].
  now inversion Hal.
Qed.

Lemma insertBy_sorted (x : BlogPost) (l : list BlogPost) :
  Sorted (inOrder le) l -> Sorted (inOrder le) (insertBy le x l).
Proof.
  induction 1 as [|y t Ht IH Hy]; simpl; [repeat constructor|].
  destruct (le x y) eqn:E.
  - constructor; [now constructor|now constructor].
  - constructor; [exact IH|]. apply insertBy_hd; [now apply le_total|exact Hy].
Qed.

Lemma sortBy_sorted (l : list BlogPost) : Sorted (inOrder le) (sortBy le l).
Proof.
  induction l as [|x t IH]; simpl; [constructor|now apply insertBy_sorted].
Qed.

End Insertion.

Lemma newest_total (a b : BlogPost) :
  before "created_at" false a b = false -> before "created_at" false b a = true.
Proof.
  unfold before; simpl. intros H.
  destruct (String.leb_total (created_at b) (created_at a)) as [E|E];
    [congruence|exact E].
Qed.

Lemma ascii_compare_trans (x y z : ascii) (r : comparison) :
  Ascii.compare x y = r -> Ascii.compare y z = r -> Ascii.compare x z = r.
Proof.
  unfold Ascii.compare. intros H1 H2. destruct r.
  - apply N.compare_eq_iff in H1, H2. apply N.compare_eq_iff. congruence.
  - rewrite N.compare_lt_iff in *. lia.
  - rewrite N.compare_gt_iff in *. lia.
Qed.

Lemma string_leb_trans (a : string) :
  forall b c, String.leb a b = true -> String.leb b c = true -> String.leb a c = true.
Proof.
  unfold String.leb.
  induction a as [|x a IH]; intros [|y b] [|z c]; simpl; try easy.
  destruct (Ascii.compare x y) eqn:Exy; try easy;
    destruct (Ascii.compare y z) eqn:Eyz; try easy.
  - rewrite (ascii_compare_trans _ _ _ _ Exy Eyz). apply IH.
  - apply Ascii.compare_eq_iff in Exy; subst. now rewrite Eyz.
  - apply Ascii.compare_eq_iff in Eyz; subst. now rewrite Exy.
  - now rewrite (ascii_compare_trans _ _ _ _ Exy Eyz).
Qed.

Lemma newestFirst_trans (a b c : BlogPost) :
  newestFirst a b -> newestFirst b c -> newestFirst a c.
Proof. unfold newestFirst. intros Hab Hbc. exact (string_leb_trans _ _ _ Hbc Hab). Qed.

(** C2.  Whatever the client answers, the listing page sends one request:
    all columns of [blog_posts] where [status] is [published], ordered by
    [created_at] descending, without limit.  Over a table that holds [rows]
    the page then shows only published posts, exactly those of [rows]
    (as a permutation of the published ones), newest first: each post shown
    is at least as recent as every post after it. *)
Theorem fetchPosts_published_newest_first (c : Client) (st : State)
        (rows : list BlogPost) :
  fetchPostsQuery =
    mkQuery "blog_posts" "*" [("status", "published")]
            (Some ("created_at", false)) None false
  /\ requests (log (fetchPosts c st)) = [RowSelect fetchPostsQuery]
  /\ let shown := posts (final (fetchPosts (clientOver rows) initial)) in
     Forall (fun p => status p = Published) shown
     /\ Permutation shown (filter isPublished rows)
     /\ StronglySorted newestFirst shown.
Proof.
  split; [reflexivity|]. split.
  - unfold fetchPosts.
    destruct (selectMany c fetchPostsQuery) as [r|]; [destruct (error r)|];
      reflexivity.
  - cbv zeta.
    assert (E : posts (final (fetchPosts (clientOver rows) initial))
                = sortBy (before "created_at" false) (filter isPublished rows)).
    { unfold fetchPosts; simpl. unfold runSelect; simpl.
      f_equal. apply filter_ext. intros p. apply passes_status_published. }
    rewrite E.
    assert (P : Permutation (sortBy (before "created_at" false)
                                    (filter isPublished rows))
                            (filter isPublished rows)) by apply sortBy_perm.
    split; [|split].
    + eapply Permutation_Forall; [symmetry; exact P|].
      apply Forall_forall. intros p Hp. apply filter_In in Hp as [_ Hp].
      unfold isPublished in Hp. now destruct (status p).
    + exact P.
    + apply Sorted_StronglySorted; [exact newestFirst_trans|].
      apply (sortBy_sorted (before "created_at" false) newest_total).
Qed.

(** The scenario of the specification: the February post comes before the
    January one, and the draft is absent. *)
Example listing_february_first :
  posts (final (fetchPosts (clientOver [Examples.january; Examples.sketch;
                                         Examples.february]) initial))
  = [Examples.february; Examples.january].
Proof. reflexivity. Qed.

End ListingClaims.

(** ** The detail page: the three outcomes of the fetch *)

Section DetailClaims.
Import Data Detail.

Lemma passes_slug_published (slug : string) (p : BlogPost) :
  Store.passesAll [("slug", slug); ("status", "published")] p = publishedAs slug p.
Proof.
  unfold Store.passesAll, Store.passes, publishedAs; simpl.
  rewrite andb_true_r. now destruct (status p).
Qed.

(** C3.  The detail page asks for one row of [blog_posts] whose slug is the
    one of the address and whose status is [published]; this is its only
    request, sent at mount when the slug is not empty (with an empty slug
    nothing is sent and the spinner stays).  Once the answer has come the
    page shows the article when the answer carries a row and no error; the
    card "Blog post not found" when the error code is the no-rows code
    PGRST116; and the card "Error loading blog post" for every other error
    and for a rejected request.  The two cards differ.  Over a table that
    holds [rows], whose error for several selected rows is not the no-rows
    one: exactly one published row with the slug shows that row, none shows
    "Blog post not found", several show "Error loading blog post". *)
Theorem detail_fetch_outcomes (c : Client) (slug : string)
        (rows : list BlogPost) (ambiguous : ApiError) :
  fetchPostQuery slug
    = mkQuery "blog_posts" "*" [("slug", slug); ("status", "published")]
              None None true
  /\ requests (log (mount c slug initial))
     = (if truthy slug
        then [RowSelect
                (mkQuery "blog_posts" "*" [("slug", slug); ("status", "published")]
                         None None true)]
        else [])
  /\ loaded c slug =
       (if truthy slug then
          match selectSingle c
                  (mkQuery "blog_posts" "*"
                           [("slug", slug); ("status", "published")]
                           None None true) with
          | Resolved r =>
              match Data.error r with
              | None =>
                  match data r with
                  | Some p => Article p
                  | None => ErrorCard "Blog post not found"
                  end
              | Some e =>
                  if String.eqb (code e) "PGRST116"
                  then ErrorCard "Blog post not found"
                  else ErrorCard "Error loading blog post"
              end
          | Rejected _ => ErrorCard "Error loading blog post"
          end
        else Spinner)
  /\ String.eqb "Blog post not found" "Error loading blog post" = false
  /\ (String.eqb (code ambiguous) "PGRST116" = false ->
      truthy slug = true ->
      loaded (clientOver ambiguous rows) slug =
        match filter (publishedAs slug) rows with
        | [] => ErrorCard "Blog post not found"
        | [p] => Article p
        | _ :: _ :: _ => ErrorCard "Error loading blog post"
        end).
Proof.
  split; [reflexivity|].
  assert (Q : fetchPostQuery slug
              = mkQuery "blog_posts" "*" [("slug", slug); ("status", "published")]
                        None None true) by reflexivity.
  split; [|split; [|split; [reflexivity|]]].
  - unfold mount. destruct (truthy slug); [|reflexivity].
    unfold fetchPost. rewrite Q.
    destruct (selectSingle c _) as [r|]; [|reflexivity].
    destruct (Data.error r) as [e|]; [|reflexivity].
    now destruct (String.eqb (code e) noRowsCode).
  - unfold loaded, mount. destruct (truthy slug); [|reflexivity].
    unfold fetchPost. rewrite Q.
    destruct (selectSingle c _) as [r|]; [|reflexivity].
    destruct (Data.error r) as [e|].
    + unfold noRowsCode. now destruct (String.eqb (code e) "PGRST116").
    + simpl. now destruct (data r).
  - intros Ha Hs. unfold loaded, mount. rewrite Hs.
    unfold fetchPost. rewrite Q.
    change (selectSingle (clientOver ambiguous rows))
      with (Store.answerSingle ambiguous rows).
    unfold Store.answerSingle, Store.runSelect. simpl.
    rewrite (filter_ext _ _ (passes_slug_published slug)).
    destruct (filter (publishedAs slug) rows) as [|p [|p' l]]; simpl;
      try reflexivity.
    unfold noRowsCode. now rewrite Ha.
Qed.

Lemma detail_fetch_outcomes_witness :
  loaded (clientOver Examples.severalRows
            [Examples.january; Examples.sketch; Examples.illustrated]) "trip"
  = Article Examples.illustrated.
Proof.
  destruct (detail_fetch_outcomes Examples.obliging "trip"
              [Examples.january; Examples.sketch; Examples.illustrated]
              Examples.severalRows) as (_ & _ & _ & _ & H).
  apply H; reflexivity.
Defined.

(** A rejected request and a no-rows answer lead to different cards. *)
Example detail_offline_is_not_not_found :
  loaded Examples.offline "trip" = ErrorCard "Error loading blog post"
  /\ loaded Examples.obliging "trip" = Article Examples.illustrated.
Proof. split; reflexivity. Qed.

(** Over a table: a slug no published post has, a slug two published posts
    share, a slug only a draft has, and the empty slug. *)
Example detail_over_a_table :
  let table := [Examples.january; Examples.sketch; Examples.illustrated;
                Examples.namesake] in
  loaded (clientOver Examples.severalRows table) "first" = Article Examples.january
  /\ loaded (clientOver Examples.severalRows table) "absent"
     = ErrorCard "Blog post not found"
  /\ loaded (clientOver Examples.severalRows table) "third"
     = ErrorCard "Blog post not found"
  /\ loaded (clientOver Examples.severalRows table) "trip"
     = ErrorCard "Error loading blog post"
  /\ loaded (clientOver Examples.severalRows table) EmptyString = Spinner.
Proof. cbv zeta. split; [|split; [|split; [|split]]]; reflexivity. Qed.

End DetailClaims.

(** ** The edit page: the initial fetch *)

Section EditFetchClaims.
Import Data EditPost.

(** C10.  From any state of the edit page, every failure of the fetch (an
    error of whatever code, or a rejected request) leaves the error text
    "Post not found" and the page shows that one message. *)
Theorem edit_fetch_failure_is_not_found (c : Client) (postId : string) (st : State) :
  fetchFailed (selectSingle c (fetchPostQuery postId)) = true ->
  error (final (fetchPost c postId st)) = "Post not found"
  /\ render (final (fetchPost c postId st)) = Message "Post not found".
Proof.
  unfold fetchPost, fetchFailed.
  destruct (selectSingle c (fetchPostQuery postId)) as [r|].
  - destruct (Data.error r); [|discriminate]. intros _.
    split; [reflexivity|]. unfold render; simpl. now destruct (post st).
  - intros _. split; [reflexivity|]. unfold render; simpl. now destruct (post st).
Qed.

Lemma edit_fetch_failure_witness :
  error (final (fetchPost Examples.offline "7" initial)) = "Post not found"
  /\ render (final (fetchPost Examples.offline "7" initial)) = Message "Post not found".
Proof.
  apply (edit_fetch_failure_is_not_found Examples.offline "7" initial).
  reflexivity.
Defined.

End EditFetchClaims.

(** ** Blank fields *)

Lemma trimStart_blank (s : string) :
  allChars isWhiteSpace s = true -> trimStart s = EmptyString.
Proof.
  induction s as [|c r IH]; simpl; [reflexivity|].
  intros H; apply andb_true_iff in H as [Hc Hr]. now rewrite Hc, IH.
Qed.

Lemma trim_blank (s : string) :
  allChars isWhiteSpace s = true -> truthy (trim s) = false.
Proof. intros H. unfold trim. now rewrite trimStart_blank. Qed.

Lemma requests_app (l l' : list Data.Event) :
  Data.requests (l ++ l') = (Data.requests l ++ Data.requests l')%list.
Proof. apply filter_app. Qed.

(** ** The create page *)

Section AddClaims.
Import Data AddPost.

(** C7.  When the content, or the title, of the create form is empty or
    holds only white space, [handleSubmit] sends no request at all (neither
    an insert nor an upload): it only alerts, and the state of the form is
    what it was. *)
Theorem add_blank_submission_is_inert (c : Client) (st : State) :
  allChars isWhiteSpace (content st) = true
  \/ allChars isWhiteSpace (title st) = true ->
  final (handleSubmit c st) = st
  /\ requests (log (handleSubmit c st)) = []
  /\ log (handleSubmit c st) =
       [PreventDefault; Alert "Title and content are required!"].
Proof.
  intros H. unfold handleSubmit.
  assert (E : negb (truthy (trim (title st))) || negb (truthy (trim (content st)))
              = true).
  { destruct H as [H|H]; rewrite (trim_blank _ H); simpl;
      [apply orb_true_r|reflexivity]. }
  rewrite E. repeat split.
Qed.

Lemma add_blank_submission_witness :
  final (handleSubmit Examples.obliging Examples.newPostBlankContent)
    = Examples.newPostBlankContent
  /\ requests (log (handleSubmit Examples.obliging Examples.newPostBlankContent)) = []
  /\ log (handleSubmit Examples.obliging Examples.newPostBlankContent) =
       [PreventDefault; Alert "Title and content are required!"].
Proof.
  apply (add_blank_submission_is_inert Examples.obliging Examples.newPostBlankContent).
  left. reflexivity.
Defined.

(** C5.  When a file is selected and the object store answers its upload
    with a failure, [handleSubmit] sends no insert; and once the upload has
    been sent, it is the only request, and the alert
    "Error uploading image!" is shown. *)
Theorem add_failed_upload_skips_insert (c : Client) (st : State) (file : File) :
  selectedFile st = Some file ->
  uploadFails c file = true ->
  existsb isInsert (log (handleSubmit c st)) = false
  /\ (existsb isUpload (log (handleSubmit c st)) = true ->
      requests (log (handleSubmit c st))
        = [StorageUpload bucket (objectName c file) file]
      /\ In (Alert "Error uploading image!") (log (handleSubmit c st))).
Proof.
  intros Hf Hu. unfold handleSubmit.
  destruct (negb (truthy (trim (title st))) || negb (truthy (trim (content st)))).
  - split; [reflexivity|]. simpl. discriminate.
  - rewrite Hf. unfold uploadFails in Hu. unfold uploadImage.
    destruct (storageUpload c bucket (objectName c file) file) as [[e|]|reason];
      try discriminate; simpl; (split; [reflexivity|]); intros _;
      (split; [reflexivity|]); right; right; right; left; reflexivity.
Qed.

Lemma add_failed_upload_witness :
  existsb isInsert
    (log (handleSubmit Examples.refusingUploads Examples.newPostWithPhoto)) = false
  /\ requests (log (handleSubmit Examples.refusingUploads Examples.newPostWithPhoto))
     = [StorageUpload "blog-images" "1700000000000-4fzyo82mvyr.jpg" Examples.photo]
  /\ In (Alert "Error uploading image!")
        (log (handleSubmit Examples.refusingUploads Examples.newPostWithPhoto)).
Proof.
  destruct (add_failed_upload_skips_insert
              Examples.refusingUploads Examples.newPostWithPhoto Examples.photo
              eq_refl eq_refl) as [H1 H2].
  split; [exact H1|]. apply H2. reflexivity.
Defined.

End AddClaims.

(** ** The edit page: replacing and keeping the picture *)

Section EditClaims.
Import Data EditPost.

Lemma orNull_kept (o : option string) : o <> Some EmptyString -> orNull o = o.
Proof.
  destruct o as [[|a s]|]; unfold orNull; simpl; [congruence|reflexivity|reflexivity].
Qed.

Lemma deleteOldImage_requests (c : Client) (url name : string) :
  pop (split "/" url) = Some name -> truthy name = true ->
  requests (deleteOldImage c url) = [StorageRemove bucket [name]].
Proof.
  intros Hn Ht. unfold deleteOldImage. rewrite Hn, Ht.
  now destruct (storageRemove c bucket [name]).
Qed.

Lemma last_segment_of_empty (url name : string) :
  pop (split "/" url) = Some name -> truthy name = true -> truthy url = true.
Proof.
  destruct url; simpl; [|reflexivity].
  intros H; injection H as <-. discriminate.
Qed.

Lemma updatePost_requests (c : Client) (postId : string) (st : State)
      (url name : option string) (before : list Event) :
  requests (log (updatePost c postId st url name before))
  = (requests before ++ [RowUpdate table postId (updateFields c st url name)])%list.
Proof.
  unfold updatePost.
  destruct (updateRow c table postId (updateFields c st url name)) as [r|];
    [destruct (Data.error r)|]; simpl; now rewrite requests_app.
Qed.

(** C4, as the code has it.  When the edit form is accepted (title and
    content are not blank), the post has an image_url whose last path
    segment is not empty and a new file is selected, [handleSubmit] sends
    exactly: one delete of that segment, then one upload under the newly
    generated name, then -- if the upload succeeded -- the row update; and
    nothing else. *)
Theorem edit_replace_requests (c : Client) (postId : string) (st : State)
        (p : BlogPost) (url name : string) (file : File) :
  accepted st = true ->
  post st = Some p ->
  image_url p = Some url ->
  pop (split "/" url) = Some name ->
  truthy name = true ->
  selectedFile st = Some file ->
  requests (log (handleSubmit c postId st)) =
    StorageRemove bucket [name]
    :: StorageUpload bucket (objectName c file) file
    :: (if uploadSucceeds c file
        then [RowUpdate table postId
                (updateFields c st
                   (Some (getPublicUrl c bucket (objectName c file)))
                   (Some (file_name file)))]
        else []).
Proof.
  intros Ha Hp Hu Hn Ht Hf. unfold handleSubmit, accepted in *.
  apply andb_true_iff in Ha as [Ha1 Ha2]. rewrite Ha1, Ha2; simpl.
  rewrite Hf. unfold postImageUrl. rewrite Hp, Hu.
  rewrite (last_segment_of_empty _ _ Hn Ht).
  pose proof (deleteOldImage_requests c url name Hn Ht) as Hd.
  unfold uploadSucceeds, uploadImage.
  destruct (storageUpload c bucket (objectName c file) file) as [[e|]|reason]; simpl.
  - unfold requests in *. simpl. rewrite !filter_app, Hd. reflexivity.
  - destruct (truthy (getPublicUrl c bucket (objectName c file))); simpl.
    + rewrite updatePost_requests. unfold requests in *. simpl.
      rewrite !filter_app, Hd. reflexivity.
    + unfold requests in *. simpl. rewrite !filter_app, Hd. reflexivity.
  - unfold requests in *. simpl. rewrite !filter_app, Hd. reflexivity.
Qed.

Lemma edit_replace_requests_witness :
  requests (log (handleSubmit Examples.obliging "7" Examples.replacingPicture)) =
    [StorageRemove "blog-images" ["old.png"];
     StorageUpload "blog-images" "1700000000000-4fzyo82mvyr.jpg" Examples.photo;
     RowUpdate "blog_posts" "7"
       (mkFields "Trip" "Day one" None
          (Some "https://cdn.example/storage/v1/object/public/blog-images/1700000000000-4fzyo82mvyr.jpg")
          (Some "new.jpg") "trip" Published (Some "2024-05-01T10:00:00.000Z"))].
Proof.
  apply (edit_replace_requests Examples.obliging "7" Examples.replacingPicture
           Examples.illustrated
           "https://cdn.example/storage/v1/object/public/blog-images/old.png"
           "old.png" Examples.photo); reflexivity.
Defined.

(** C4, as stated, fails: with an existing image_url and a new file
    selected, an upload the store refuses is followed by no row update. *)
Lemma edit_refused_upload_sends_no_update :
  requests (log (handleSubmit Examples.refusingUploads "7" Examples.replacingPicture)) =
    [StorageRemove "blog-images" ["old.png"];
     StorageUpload "blog-images" "1700000000000-4fzyo82mvyr.jpg" Examples.photo]
  /\ existsb isUpdate
       (log (handleSubmit Examples.refusingUploads "7" Examples.replacingPicture))
     = false.
Proof. split; reflexivity. Qed.

(** C6.  When no new file is selected, every update request that
    [handleSubmit] sends carries the image_url and image_name of the post
    unchanged, and an accepted form sends exactly that one update.  The
    picture fields of the post are absent or not empty, as the data model
    has them and as both pages write them. *)
Theorem edit_keeps_picture (c : Client) (postId : string) (st : State) (p : BlogPost) :
  post st = Some p ->
  selectedFile st = None ->
  image_url p <> Some EmptyString ->
  image_name p <> Some EmptyString ->
  Forall (sendsPicture (image_url p) (image_name p)) (log (handleSubmit c postId st))
  /\ (accepted st = true ->
      requests (log (handleSubmit c postId st))
      = [RowUpdate table postId (updateFields c st (image_url p) (image_name p))]).
Proof.
  intros Hp Hf Hu Hn. unfold handleSubmit, accepted.
  destruct (truthy (trim (title st))), (truthy (trim (content st))); simpl;
    try (split; [repeat constructor|discriminate]).
  rewrite Hf. unfold postImageUrl, postImageName. rewrite Hp.
  rewrite (orNull_kept _ Hu), (orNull_kept _ Hn).
  split.
  - unfold updatePost.
    destruct (updateRow c table postId
                (updateFields c st (image_url p) (image_name p))) as [r|];
      [destruct (Data.error r)|]; simpl; repeat constructor.
  - intros _. now rewrite updatePost_requests.
Qed.

Lemma edit_keeps_picture_witness :
  Forall (sendsPicture (image_url Examples.illustrated)
                       (image_name Examples.illustrated))
         (log (handleSubmit Examples.obliging "7" Examples.keepingPicture))
  /\ requests (log (handleSubmit Examples.obliging "7" Examples.keepingPicture))
     = [RowUpdate table "7"
          (updateFields Examples.obliging Examples.keepingPicture
             (image_url Examples.illustrated) (image_name Examples.illustrated))].
Proof.
  destruct (edit_keeps_picture Examples.obliging "7" Examples.keepingPicture
              Examples.illustrated eq_refl eq_refl) as [H1 H2].
  - discriminate.
  - discriminate.
  - split; [exact H1|]. apply H2. reflexivity.
Defined.

(** Outside the data model: a row whose image_url and image_name are the
    empty text, which neither page writes, is updated with both fields
    null. *)
Example edit_blank_picture_becomes_null :
  image_url Examples.blankPicture = Some EmptyString
  /\ image_name Examples.blankPicture = Some EmptyString
  /\ requests (log (handleSubmit Examples.obliging "8" Examples.keepingBlankPicture)) =
       [RowUpdate "blog_posts" "8"
          (mkFields "Note" "Text" None None None "note" Published
                    (Some "2024-05-01T10:00:00.000Z"))].
Proof. split; [|split]; reflexivity. Qed.

End EditClaims.

(** ** Slug derivation: further properties of [generateSlug] *)

Section SlugFurther.

Lemma slug_text_fixed (x : string) :
  allChars isSlugChar x = true -> noHyphenPair x = true -> generateSlug x = x.
Proof.
  intros Hchars Hpair. rewrite generateSlug_unfold. unfold retained, replaceRuns.
  rewrite (toLowerCase_fixed _ Hchars).
  rewrite removeOutside_fixed
    by (apply allChars_weaken with (p := isSlugChar);
        [apply slugChar_in_class|exact Hchars]).
  rewrite (replaceRunsFrom_fixed_none isWhiteSpace).
  - now apply hyphen_runs_fixed.
  - apply allChars_weaken with (p := isSlugChar); [|exact Hchars].
    intros c Hc. now rewrite (slugChar_not_space _ Hc).
Qed.

(** X1.  Deriving the slug of a slug changes nothing, whatever the title
    was. *)
Theorem generateSlug_idempotent_on_all_titles (title : string) :
  generateSlug (generateSlug title) = generateSlug title.
Proof.
  apply slug_text_fixed; rewrite generateSlug_unfold.
  - apply hyphenated_all_slugChar.
  - apply hyphen_runs_noPair.
Qed.

Lemma replaceRunsFrom_ends_in_run (p : ascii -> bool) (r c : ascii) (s : string) :
  lastChar s = Some c -> p c = true ->
  lastChar (replaceRunsFrom p r false s) = Some r
  /\ (replaceRunsFrom p r true s = EmptyString
      \/ lastChar (replaceRunsFrom p r true s) = Some r).
Proof.
  intros Hl Hp; induction s as [|d t IH]; [discriminate|].
  destruct t as [|e u].
  - simpl in Hl; injection Hl as ->. simpl. rewrite Hp. split; auto.
  - assert (Ht : lastChar (String e u) = Some c) by exact Hl.
    destruct (IH Ht) as [IHf IHt]. clear IH.
    change (replaceRunsFrom p r false (String d (String e u)))
      with (if p d then String r (replaceRunsFrom p r true (String e u))
            else String d (replaceRunsFrom p r false (String e u))).
    change (replaceRunsFrom p r true (String d (String e u)))
      with (if p d then replaceRunsFrom p r true (String e u)
            else String d (replaceRunsFrom p r false (String e u))).
    destruct (p d).
    + split; [|exact IHt].
      destruct IHt as [E|E]; [now rewrite E|now apply lastChar_cons].
    + split; [|right]; now apply lastChar_cons.
Qed.

Lemma retained_app (a b : string) : retained (a ++ b) = retained a ++ retained b.
Proof.
  unfold retained. induction a as [|c r IH]; simpl; [reflexivity|].
  destruct (inSlugClass (lowerChar c)); simpl; now rewrite IH.
Qed.

Lemma lastChar_app_one (s : string) (c : ascii) :
  lastChar (s ++ String c EmptyString) = Some c.
Proof.
  induction s as [|d t IH]; simpl; [reflexivity|].
  destruct (t ++ String c EmptyString) eqn:E; [|exact IH].
  destruct t; discriminate.
Qed.

(** X2.  A space at the start of a title always gives a slug that begins
    with a hyphen, and a space at its end a slug that ends with one: the
    final [trim] finds no white space left to remove. *)
Theorem generateSlug_space_at_end_becomes_hyphen (title : string) :
  startsWithHyphen (generateSlug (String " " title)) = true
  /\ endsWithHyphen (generateSlug (title ++ " ")) = true.
Proof.
  split.
  - rewrite generateSlug_unfold. reflexivity.
  - rewrite generateSlug_unfold, retained_app. unfold endsWithHyphen, replaceRuns.
    change (retained " ") with " ".
    destruct (replaceRunsFrom_ends_in_run isWhiteSpace "-" " " (retained title ++ " "))
      as [H _]; [apply lastChar_app_one|reflexivity|].
    destruct (replaceRunsFrom_ends_in_run isHyphen "-" "-"
                (replaceRunsFrom isWhiteSpace "-" false (retained title ++ " ")))
      as [H' _]; [exact H|reflexivity|].
    now rewrite H'.
Qed.

Lemma replaceRunsFrom_empty (p : ascii -> bool) (r : ascii) (s : string) :
  replaceRunsFrom p r false s = EmptyString -> s = EmptyString.
Proof. destruct s as [|c t]; simpl; [reflexivity|]. now destruct (p c). Qed.

Lemma retained_empty (title : string) :
  retained title = EmptyString
  <-> allChars (fun c => negb (inSlugClass (lowerChar c))) title = true.
Proof.
  unfold retained. induction title as [|c r IH]; simpl; [tauto|].
  destruct (inSlugClass (lowerChar c)); simpl; [split; discriminate|exact IH].
Qed.

(** X3.  The slug is empty exactly when no character of the title, once
    lowercased, is a letter a-z, a digit, a space or a hyphen. *)
Theorem generateSlug_empty_iff (title : string) :
  generateSlug title = EmptyString
  <-> allChars (fun c => negb (inSlugClass (lowerChar c))) title = true.
Proof.
  rewrite generateSlug_unfold, <- retained_empty. split.
  - intros H. now apply replaceRunsFrom_empty, replaceRunsFrom_empty in H.
  - intros ->. reflexivity.
Qed.

Lemma generateSlug_empty_witness :
  generateSlug "?!... (2)" = "-2" /\ generateSlug "?!..." = EmptyString.
Proof.
  split; [reflexivity|].
  apply (proj2 (generateSlug_empty_iff "?!...")). reflexivity.
Defined.

Lemma removeOutside_length (keep : ascii -> bool) (s : string) :
  String.length (removeOutside keep s) <= String.length s.
Proof.
  induction s as [|c r IH]; simpl; [lia|]. destruct (keep c); simpl; lia.
Qed.

Lemma replaceRunsFrom_length (p : ascii -> bool) (r : ascii) (s : string) :
  forall b, String.length (replaceRunsFrom p r b s) <= String.length s.
Proof.
  induction s as [|c t IH]; simpl; [lia|]; intros b.
  destruct (p c); [destruct b|]; simpl.
  - specialize (IH true). lia.
  - specialize (IH true). lia.
  - specialize (IH false). lia.
Qed.

Lemma toLowerCase_length (s : string) :
  String.length (toLowerCase s) = String.length s.
Proof. induction s as [|c r IH]; simpl; [reflexivity|now rewrite IH]. Qed.

(** X4.  A slug is never longer than its title. *)
Theorem generateSlug_not_longer (title : string) :
  String.length (generateSlug title) <= String.length title.
Proof.
  rewrite generateSlug_unfold. unfold replaceRuns, retained.
  pose proof (replaceRunsFrom_length isHyphen "-"
                (replaceRunsFrom isWhiteSpace "-" false
                   (removeOutside inSlugClass (toLowerCase title))) false).
  pose proof (replaceRunsFrom_length isWhiteSpace "-"
                (removeOutside inSlugClass (toLowerCase title)) false).
  pose proof (removeOutside_length inSlugClass (toLowerCase title)).
  rewrite toLowerCase_length in *. lia.
Qed.

End SlugFurther.

(** ** The listing page: previews and the empty state *)

Section ListingDisplay.
Import Data Listing Display.

Lemma string_app_length (a b : string) :
  String.length (a ++ b) = String.length a + String.length b.
Proof. induction a as [|c r IH]; simpl; [reflexivity|now rewrite IH]. Qed.

Lemma take_length (n : nat) (s : string) :
  String.length (take n s) = Nat.min n (String.length s).
Proof.
  revert s; induction n as [|m IH]; intros [|c r]; simpl; try reflexivity.
  now rewrite IH.
Qed.

Lemma take_app_exact (a b : string) : take (String.length a) (a ++ b) = a.
Proof. induction a as [|c r IH]; simpl; [now destruct b|now rewrite IH]. Qed.

Lemma take_take_app (n : nat) (s b : string) :
  n <= String.length s -> take n (take n s ++ b) = take n s.
Proof.
  intros H. rewrite <- (take_app_exact (take n s) b) at 2.
  f_equal. rewrite take_length. lia.
Qed.

Lemma substring_from_start (n : nat) (s : string) : substring 0 n s = take n s.
Proof. unfold substring. simpl. now rewrite Nat.sub_0_r. Qed.

Lemma truncateText_length (text : string) (maxLength : nat) :
  String.length (truncateText text maxLength) <= maxLength + 3.
Proof.
  unfold truncateText. destruct (Nat.leb_spec (String.length text) maxLength).
  - lia.
  - rewrite substring_from_start, string_app_length, take_length. simpl. lia.
Qed.

(** X5.  A truncated text has at most [maxLength + 3] characters and keeps
    the first [maxLength] characters of the text. *)
Theorem truncateText_bounded_prefix (text : string) (maxLength : nat) :
  String.length (truncateText text maxLength) <= maxLength + 3
  /\ take maxLength (truncateText text maxLength) = take maxLength text.
Proof.
  split; [apply truncateText_length|].
  unfold truncateText. destruct (Nat.leb_spec (String.length text) maxLength).
  - reflexivity.
  - rewrite substring_from_start. apply take_take_app. lia.
Qed.

(** X6.  Truncating a truncated text at the same length changes nothing,
    although the dots make it longer than [maxLength]. *)
Theorem truncateText_idempotent (text : string) (maxLength : nat) :
  truncateText (truncateText text maxLength) maxLength = truncateText text maxLength.
Proof.
  destruct (Nat.leb_spec (String.length text) maxLength) as [H|H].
  - assert (E : truncateText text maxLength = text).
    { unfold truncateText. apply Nat.leb_le in H. now rewrite H. }
    now rewrite !E.
  - assert (E : truncateText text maxLength = take maxLength text ++ "...").
    { unfold truncateText. apply Nat.leb_gt in H. rewrite H.
      now rewrite substring_from_start. }
    rewrite E. unfold truncateText.
    assert (L : String.length (take maxLength text ++ "...") = maxLength + 3).
    { rewrite string_app_length, take_length. simpl. lia. }
    rewrite L. destruct (Nat.leb_spec (maxLength + 3) maxLength); [lia|].
    rewrite substring_from_start. now rewrite take_take_app by lia.
Qed.

Lemma cardPreview_length (p : BlogPost) : String.length (cardPreview p) <= 123.
Proof.
  unfold cardPreview. destruct (truthyOpt (excerpt p));
    apply (truncateText_length _ 120).
Qed.

(** X7.  Once loaded with at least one post, the listing shows one card per
    post, in the order of the posts, and no preview is longer than 123
    characters. *)
Theorem listing_grid_cards (st : State) (p : BlogPost) (rest : list BlogPost) :
  loading st = false ->
  posts st = p :: rest ->
  renderListing st = Grid (map card (p :: rest))
  /\ map card_key (map card (p :: rest)) = map id (p :: rest)
  /\ Forall (fun k => String.length (card_preview k) <= 123) (map card (p :: rest)).
Proof.
  intros Hl Hp. unfold renderListing. rewrite Hl, Hp. split; [reflexivity|].
  split.
  - rewrite map_map. reflexivity.
  - apply Forall_map, Forall_forall. intros q _. apply cardPreview_length.
Qed.

Lemma listing_grid_cards_witness :
  renderListing (mkState [Examples.february; Examples.january] false)
  = Grid [card Examples.february; card Examples.january].
Proof.
  apply (listing_grid_cards (mkState [Examples.february; Examples.january] false)
           Examples.february [Examples.january]); reflexivity.
Defined.

(** X8.  When the listing query fails (an error or a rejected request) the
    posts held are left as they were and loading ends; at mount this shows
    the same "No blog posts yet" state as a table without published posts. *)
Theorem listing_failure_shows_empty_state (c : Client) (st : State) :
  answerFailed (selectMany c fetchPostsQuery) = true ->
  posts (final (fetchPosts c st)) = posts st
  /\ loading (final (fetchPosts c st)) = false
  /\ renderListing (final (fetchPosts c initial)) = NoPostsYet
  /\ renderListing (final (fetchPosts (clientOver []) initial)) = NoPostsYet.
Proof.
  unfold fetchPosts, answerFailed.
  destruct (selectMany c fetchPostsQuery) as [r|]; [destruct (error r)|];
    try discriminate; intros _; repeat split.
Qed.

Lemma listing_failure_witness :
  posts (final (fetchPosts Examples.offline initial)) = []
  /\ loading (final (fetchPosts Examples.offline initial)) = false
  /\ renderListing (final (fetchPosts Examples.offline initial)) = NoPostsYet
  /\ renderListing (final (fetchPosts (clientOver []) initial)) = NoPostsYet.
Proof.
  apply (listing_failure_shows_empty_state Examples.offline initial). reflexivity.
Defined.

End ListingDisplay.

(** ** The detail page: the paragraphs of the article *)

Section ArticleParagraphs.
Import Data Display.

Lemma formatContent_empty (s : string) : formatContent s = EmptyString -> s = EmptyString.
Proof.
  destruct s as [|c r]; simpl; [reflexivity|]. now destruct (Ascii.eqb c LF).
Qed.

Lemma split_doubled_newlines (s : string) :
  splitPair LF LF (formatContent s) = split LF s.
Proof.
  induction s as [|c r IH]; [reflexivity|].
  simpl formatContent. simpl split. destruct (Ascii.eqb c LF) eqn:E.
  - simpl. now rewrite IH.
  - destruct (formatContent r) as [|d r'] eqn:F.
    + apply formatContent_empty in F. subst r. reflexivity.
    + rewrite <- IH.
      change (splitPair LF LF (String c (String d r')))
        with (if Ascii.eqb c LF && Ascii.eqb d LF
              then EmptyString :: splitPair LF LF r'
              else consHead c (splitPair LF LF (String d r'))).
      rewrite E. reflexivity.
Qed.

(** X9.  Doubling the newlines and cutting at double newlines cancel out:
    the article shows exactly the lines of the content, trimmed, without the
    lines that are blank. *)
Theorem paragraphs_are_nonblank_lines (content : string) :
  paragraphs content = filter truthy (map trim (split LF content)).
Proof. unfold paragraphs. now rewrite split_doubled_newlines. Qed.

Lemma split_pieces_no_separator (s : string) :
  Forall (fun piece => allChars notLF piece = true) (split LF s).
Proof.
  induction s as [|c r IH]; simpl; [repeat constructor|].
  destruct (Ascii.eqb c LF) eqn:E; [now constructor|].
  assert (N : notLF c = true) by (unfold notLF; now rewrite E).
  destruct (split LF r) as [|h t].
  - constructor; [simpl; now rewrite N|constructor].
  - inversion IH as [|? ? Hh Ht]; subst. constructor; [|exact Ht].
    simpl. now rewrite N.
Qed.

Lemma trimStart_all (p : ascii -> bool) (s : string) :
  allChars p s = true -> allChars p (trimStart s) = true.
Proof.
  induction s as [|c r IH]; simpl; [reflexivity|]. intros H.
  destruct (isWhiteSpace c); [|exact H].
  apply andb_true_iff in H as [_ H]. now apply IH.
Qed.

Lemma trimEnd_all (p : ascii -> bool) (s : string) :
  allChars p s = true -> allChars p (trimEnd s) = true.
Proof.
  induction s as [|c r IH]; simpl; [reflexivity|]. intros H.
  apply andb_true_iff in H as [Hc Hr]. specialize (IH Hr).
  destruct (trimEnd r) as [|d t].
  - destruct (isWhiteSpace c); simpl; [reflexivity|now rewrite Hc].
  - simpl in *. now rewrite Hc.
Qed.

Lemma trimEnd_idempotent (s : string) : trimEnd (trimEnd s) = trimEnd s.
Proof.
  induction s as [|c r IH]; simpl; [reflexivity|].
  destruct (trimEnd r) as [|d t] eqn:E.
  - destruct (isWhiteSpace c) eqn:W; simpl; [reflexivity|now rewrite W].
  - change (trimEnd (String c (String d t)))
      with (match trimEnd (String d t) with
            | EmptyString =>
                if isWhiteSpace c then EmptyString else String c EmptyString
            | u => String c u
            end).
    now rewrite IH.
Qed.

Lemma trimStart_head (s : string) :
  match trimStart s with
  | EmptyString => True
  | String c _ => isWhiteSpace c = false
  end.
Proof.
  induction s as [|c r IH]; simpl; [exact I|].
  destruct (isWhiteSpace c) eqn:W; [exact IH|exact W].
Qed.

Lemma trimEnd_keeps_head (c : ascii) (r : string) :
  isWhiteSpace c = false -> exists t, trimEnd (String c r) = String c t.
Proof.
  intros W. simpl. destruct (trimEnd r); rewrite ?W; eauto.
Qed.

Lemma trim_idempotent (s : string) : trim (trim s) = trim s.
Proof.
  unfold trim. pose proof (trimStart_head s) as H.
  destruct (trimStart s) as [|c r]; [reflexivity|].
  destruct (trimEnd_keeps_head c r H) as [t E].
  rewrite E. simpl trimStart. rewrite H, <- E. apply trimEnd_idempotent.
Qed.

(** X10.  No paragraph of the article is empty, none holds a newline, and
    none begins or ends with white space (trimming it again changes
    nothing). *)
Theorem paragraphs_are_clean (content : string) :
  Forall (fun p => truthy p = true
                   /\ allChars notLF p = true
                   /\ trim p = p)
         (paragraphs content).
Proof.
  unfold paragraphs. rewrite split_doubled_newlines.
  apply Forall_forall. intros p Hp.
  apply filter_In in Hp as [Hin Ht]. apply in_map_iff in Hin as (piece & <- & Hin).
  split; [exact Ht|]. split; [|apply trim_idempotent].
  pose proof (split_pieces_no_separator content) as F.
  rewrite Forall_forall in F. specialize (F _ Hin).
  unfold trim. now apply trimEnd_all, trimStart_all.
Qed.

End ArticleParagraphs.

(** ** The create page: every path of [handleSubmit] *)

Section AddFurther.
Import Data AddPost.

(** Case analysis over the answers of the client that [handleSubmit] of the
    create page looks at. *)
Ltac add_paths c st :=
  unfold handleSubmit, uploadImage, insertPost;
  destruct (truthy (trim (title st))), (truthy (trim (content st))); simpl;
  try destruct (selectedFile st) as [file|]; simpl;
  repeat match goal with
    | |- context [storageUpload c ?b ?n ?f] =>
        destruct (storageUpload c b n f) as [[?|]|?]; simpl
    | |- context [truthy (getPublicUrl c ?b ?n)] =>
        destruct (truthy (getPublicUrl c b n)); simpl
    | |- context [insertRow c ?t ?r] =>
        let rp := fresh "rp" in
        destruct (insertRow c t r) as [rp|?]; simpl;
        [destruct (error rp); simpl; [|destruct (data rp) as [[|? ?]|]; simpl]|]
    end.

Lemma insertPost_requests (c : Client) (st : State) (url name : option string)
      (before : list Event) :
  requests (log (insertPost c st url name before))
  = (requests before ++ [RowInsert table (insertFields st url name)])%list.
Proof.
  unfold insertPost.
  destruct (insertRow c table (insertFields st url name)) as [r|];
    [destruct (error r); [|destruct (data r) as [[|? ?]|]]|];
    simpl; now rewrite requests_app.
Qed.

(** X11.  Whatever the client answers, [handleSubmit] of the create page
    never asks the object store to remove anything and never updates a row;
    it sends at most one upload and at most one insert.  An object uploaded
    before a failed insert is therefore left in the store. *)
Theorem add_never_removes (c : Client) (st : State) :
  existsb isRemove (log (handleSubmit c st)) = false
  /\ existsb isUpdate (log (handleSubmit c st)) = false
  /\ List.length (filter isUpload (log (handleSubmit c st))) <= 1
  /\ List.length (filter isInsert (log (handleSubmit c st))) <= 1.
Proof. add_paths c st; repeat split; auto. Qed.

(** X12.  When the form is accepted, a file is selected and its upload
    succeeds, but the insert fails (an error or a rejected request), the
    requests sent are the upload and the insert, nothing removes the
    uploaded object, the user sees an alert, and the form keeps what was
    entered with loading ended. *)
Theorem add_failed_insert_leaves_upload (c : Client) (st : State) (file : File) :
  accepted st = true ->
  selectedFile st = Some file ->
  uploadSucceeds c file = true ->
  answerFailed
    (insertRow c table
       (insertFields st (Some (getPublicUrl c bucket (objectName c file)))
                     (Some (file_name file)))) = true ->
  requests (log (handleSubmit c st))
  = [StorageUpload bucket (objectName c file) file;
     RowInsert table
       (insertFields st (Some (getPublicUrl c bucket (objectName c file)))
                     (Some (file_name file)))]
  /\ existsb (fun e => match e with Alert _ => true | _ => false end)
             (log (handleSubmit c st)) = true
  /\ final (handleSubmit c st) = setLoading false st.
Proof.
  unfold accepted, uploadSucceeds, answerFailed, handleSubmit, uploadImage.
  intros Ha Hf Hu Hi. apply andb_true_iff in Ha as [Ha1 Ha2].
  rewrite Ha1, Ha2, Hf. simpl.
  destruct (storageUpload c bucket (objectName c file) file) as [[e|]|];
    simpl in Hu; try discriminate.
  simpl. rewrite Hu. simpl. unfold insertPost.
  destruct (insertRow c table
              (insertFields st (Some (getPublicUrl c bucket (objectName c file)))
                            (Some (file_name file)))) as [r|];
    [destruct (error r); [|discriminate]|]; repeat split.
Qed.

(** X13.  The create page navigates to the admin list only after an insert
    was sent and answered with a row, and then the form is reset; on every
    other path what the user entered is kept. *)
Theorem add_navigates_only_after_insert (c : Client) (st : State) :
  if existsb isNavigate (log (handleSubmit c st))
  then final (handleSubmit c st) = resetForm
       /\ existsb isInsert (log (handleSubmit c st)) = true
  else entered (final (handleSubmit c st)) = entered st.
Proof. add_paths c st; repeat split; auto. Qed.

(** X14.  Every row the create page inserts has a title and a content that
    are trimmed and not empty, never the empty text as excerpt, and the slug
    derived from the title as typed. *)
Theorem add_inserted_row_is_clean (c : Client) (st : State) :
  Forall (fun e =>
            match e with
            | RowInsert _ row =>
                truthy (f_title row) = true /\ trim (f_title row) = f_title row
                /\ truthy (f_content row) = true
                /\ trim (f_content row) = f_content row
                /\ orNull (f_excerpt row) = f_excerpt row
                /\ f_slug row = generateSlug (title st)
            | _ => True
            end)
         (log (handleSubmit c st)).
Proof.
  assert (X : forall s, orNull (orNull (Some (trim s))) = orNull (Some (trim s))).
  { intros s. unfold orNull. simpl.
    destruct (truthy (trim s)) eqn:E; simpl; now rewrite ?E. }
  unfold handleSubmit, uploadImage, insertPost.
  destruct (truthy (trim (title st))) eqn:Et,
           (truthy (trim (content st))) eqn:Ec; simpl;
    try (repeat constructor; fail).
  assert (R : forall u n,
             truthy (f_title (insertFields st u n)) = true
             /\ trim (f_title (insertFields st u n)) = f_title (insertFields st u n)
             /\ truthy (f_content (insertFields st u n)) = true
             /\ trim (f_content (insertFields st u n))
                = f_content (insertFields st u n)
             /\ orNull (f_excerpt (insertFields st u n))
                = f_excerpt (insertFields st u n)
             /\ f_slug (insertFields st u n) = generateSlug (title st)).
  { intros u n. simpl. rewrite !trim_idempotent, X. repeat split; assumption. }
  destruct (selectedFile st) as [file|]; simpl;
  repeat match goal with
    | |- context [storageUpload c ?b ?n ?f] =>
        destruct (storageUpload c b n f) as [[?|]|?]; simpl
    | |- context [truthy (getPublicUrl c ?b ?n)] =>
        destruct (truthy (getPublicUrl c b n)); simpl
    | |- context [insertRow c ?t ?r] =>
        let rp := fresh "rp" in
        destruct (insertRow c t r) as [rp|?]; simpl;
        [destruct (error rp); simpl; [|destruct (data rp) as [[|? ?]|]; simpl]|]
    end;
  repeat (constructor; try exact I; try apply R).
Qed.

(** X15.  With the submit button enabled and no file selected,
    [handleSubmit] sends exactly one request, the insert, whose picture
    fields are null; the alert for a blank title or content is not shown. *)
Theorem add_enabled_submit_inserts (c : Client) (st : State) :
  submitDisabled st = false ->
  selectedFile st = None ->
  requests (log (handleSubmit c st)) = [RowInsert table (insertFields st None None)]
  /\ f_image_url (insertFields st None None) = None
  /\ f_image_name (insertFields st None None) = None
  /\ existsb (fun e => match e with
                       | Alert m => String.eqb m "Title and content are required!"
                       | _ => false
                       end) (log (handleSubmit c st)) = false.
Proof.
  unfold submitDisabled. intros Hd Hf.
  apply orb_false_iff in Hd as [Hd Hc]. apply orb_false_iff in Hd as [_ Ht].
  unfold handleSubmit. rewrite Ht, Hc, Hf. simpl.
  split; [now rewrite insertPost_requests|]. split; [reflexivity|].
  split; [reflexivity|]. unfold insertPost.
  destruct (insertRow c table (insertFields st None None)) as [r|];
    [destruct (error r); [|destruct (data r) as [[|? ?]|]]|]; reflexivity.
Qed.

End AddFurther.

(** ** Object names: extension and last path segment *)

Section ObjectNames.
Import Data Display.

Lemma string_app_assoc (a b c : string) : (a ++ b) ++ c = a ++ (b ++ c).
Proof. induction a as [|x r IH]; simpl; [reflexivity|now rewrite IH]. Qed.

Lemma split_not_nil (sep : ascii) (s : string) : split sep s <> [].
Proof.
  induction s as [|c r IH]; simpl; [discriminate|].
  destruct (Ascii.eqb c sep); [discriminate|].
  now destruct (split sep r).
Qed.

Lemma split_app_sep (sep : ascii) (x y : string) :
  split sep (x ++ String sep y) = (split sep x ++ split sep y)%list.
Proof.
  induction x as [|c r IH]; simpl.
  - now rewrite Ascii.eqb_refl.
  - destruct (Ascii.eqb c sep); [now rewrite IH|].
    rewrite IH. pose proof (split_not_nil sep r) as N.
    now destruct (split sep r).
Qed.

Lemma pop_app (l1 l2 : list string) : l2 <> [] -> pop (l1 ++ l2)%list = pop l2.
Proof.
  intros N. induction l1 as [|x t IH]; [reflexivity|].
  simpl. destruct (t ++ l2)%list eqn:E; [|exact IH].
  apply app_eq_nil in E as [_ E]. contradiction.
Qed.

Lemma split_sep_free (sep : ascii) (e : string) :
  allChars (isNot sep) e = true -> split sep e = [e].
Proof.
  induction e as [|c r IH]; simpl; [reflexivity|].
  intros H; apply andb_true_iff in H as [Hc Hr]. unfold isNot in Hc.
  apply negb_true_iff in Hc. now rewrite Hc, IH.
Qed.

Lemma split_pieces_sep_free (sep : ascii) (s : string) :
  Forall (fun piece => allChars (isNot sep) piece = true) (split sep s).
Proof.
  induction s as [|c r IH]; simpl; [repeat constructor|].
  destruct (Ascii.eqb c sep) eqn:E; [now constructor|].
  assert (N : isNot sep c = true) by (unfold isNot; now rewrite E).
  destruct (split sep r) as [|h t].
  - constructor; [simpl; now rewrite N|constructor].
  - inversion IH as [|? ? Hh Ht]; subst. constructor; [|exact Ht].
    simpl. now rewrite N.
Qed.

Lemma pop_in (l : list string) (e : string) : pop l = Some e -> In e l.
Proof.
  induction l as [|x t IH]; [discriminate|].
  destruct t as [|y u]; simpl.
  - intros H; injection H as ->. now left.
  - intros H. right. now apply IH.
Qed.

Lemma pop_split (sep : ascii) (s : string) :
  exists e, pop (split sep s) = Some e /\ allChars (isNot sep) e = true.
Proof.
  destruct (pop (split sep s)) as [e|] eqn:E.
  - exists e. split; [reflexivity|].
    pose proof (split_pieces_sep_free sep s) as F. rewrite Forall_forall in F.
    now apply F, pop_in.
  - pose proof (split_not_nil sep s) as N.
    induction (split sep s) as [|x t IH]; [contradiction|].
    destruct t; [discriminate|]. apply IH; [exact E|discriminate].
Qed.

Lemma named_with_extension (a b name : string) :
  pop (split "." (a ++ "-" ++ b ++ "." ++ interpolate (pop (split "." name))))
  = pop (split "." name).
Proof.
  destruct (pop_split "." name) as (e & -> & He). simpl interpolate.
  change ("." ++ e) with (String "." e).
  rewrite <- (string_app_assoc "-" b), <- (string_app_assoc a).
  rewrite split_app_sep, pop_app by apply split_not_nil.
  now rewrite (split_sep_free _ _ He).
Qed.

(** X16.  The name under which a file is uploaded ends in the extension of
    the file: the text after the last dot of the object name is the text
    after the last dot of the file name (the whole file name when it has no
    dot).  This holds on the create and on the edit page. *)
Theorem objectName_keeps_extension (c : Client) (file : File) :
  pop (split "." (AddPost.objectName c file)) = pop (split "." (file_name file))
  /\ pop (split "." (EditPost.objectName c file)) = pop (split "." (file_name file)).
Proof. split; apply named_with_extension. Qed.

(** X17.  For a URL that ends in [/name], where [name] holds no slash,
    [deleteOldImage] asks for the removal of exactly the object [name] and
    does nothing else, except that a rejected removal is logged to the
    console; when [name] is empty (the URL ends in a slash) it does nothing
    at all.  So for any public URL of the form [.../objectName] the object
    removed is the one that was uploaded. *)
Theorem deleteOldImage_targets_last_segment (c : Client) (base name : string) :
  allChars (isNot "/") name = true ->
  EditPost.deleteOldImage c (base ++ String "/" name)
  = (if truthy name then
       match storageRemove c EditPost.bucket [name] with
       | Resolved _ => [StorageRemove EditPost.bucket [name]]
       | Rejected _ =>
           [StorageRemove EditPost.bucket [name];
            ConsoleError "Error deleting old image:"]
       end
     else [])
  /\ requests (EditPost.deleteOldImage c (base ++ String "/" name))
     = (if truthy name then [StorageRemove EditPost.bucket [name]] else []).
Proof.
  intros H. unfold EditPost.deleteOldImage.
  rewrite split_app_sep, pop_app by apply split_not_nil.
  rewrite (split_sep_free _ _ H). simpl.
  destruct (truthy name); [|split; reflexivity].
  now destruct (storageRemove c EditPost.bucket [name]).
Qed.

Lemma deleteOldImage_targets_witness :
  EditPost.deleteOldImage Examples.refusingRemovals
    (Examples.publicUrl "blog-images"
       (EditPost.objectName Examples.obliging Examples.photo))
  = [StorageRemove "blog-images" ["1700000000000-4fzyo82mvyr.jpg"];
     ConsoleError "Error deleting old image:"]
  /\ requests (EditPost.deleteOldImage Examples.refusingRemovals
                 (Examples.publicUrl "blog-images"
                    (EditPost.objectName Examples.obliging Examples.photo)))
     = [StorageRemove "blog-images" ["1700000000000-4fzyo82mvyr.jpg"]].
Proof.
  apply (deleteOldImage_targets_last_segment Examples.refusingRemovals
           "https://cdn.example/storage/v1/object/public/blog-images"
           "1700000000000-4fzyo82mvyr.jpg").
  reflexivity.
Defined.

End ObjectNames.

(** ** Witnesses for the create page *)

Section AddWitnesses.
Import Data AddPost.

Lemma add_failed_insert_witness :
  requests (log (handleSubmit Examples.refusingInserts Examples.newPostWithPhoto))
  = [StorageUpload "blog-images" "1700000000000-4fzyo82mvyr.jpg" Examples.photo;
     RowInsert "blog_posts"
       (mkFields "Hello" "World" None
          (Some "https://cdn.example/storage/v1/object/public/blog-images/1700000000000-4fzyo82mvyr.jpg")
          (Some "new.jpg") "hello" Published None)]
  /\ existsb (fun e => match e with Alert _ => true | _ => false end)
             (log (handleSubmit Examples.refusingInserts Examples.newPostWithPhoto))
     = true
  /\ final (handleSubmit Examples.refusingInserts Examples.newPostWithPhoto)
     = setLoading false Examples.newPostWithPhoto.
Proof.
  apply (add_failed_insert_leaves_upload Examples.refusingInserts
           Examples.newPostWithPhoto Examples.photo); reflexivity.
Defined.

Lemma add_enabled_submit_witness :
  requests (log (handleSubmit Examples.obliging Examples.newPostNoPhoto))
  = [RowInsert "blog_posts"
       (mkFields "Hello" "World" None None None "-hello" Published None)]
  /\ f_image_url (insertFields Examples.newPostNoPhoto None None) = None
  /\ f_image_name (insertFields Examples.newPostNoPhoto None None) = None
  /\ existsb (fun e => match e with
                       | Alert m => String.eqb m "Title and content are required!"
                       | _ => false
                       end)
             (log (handleSubmit Examples.obliging Examples.newPostNoPhoto)) = false.
Proof.
  apply (add_enabled_submit_inserts Examples.obliging Examples.newPostNoPhoto);
    reflexivity.
Defined.

End AddWitnesses.

(** ** The edit page: every path of [handleSubmit], and fetch then submit *)

Section EditFurther.
Import Data EditPost.

(** Case analysis over the answers of the client that [handleSubmit] of the
    edit page looks at. *)
Ltac edit_paths c st :=
  unfold handleSubmit, accepted, uploadImage, updatePost, deleteOldImage,
    postImageUrl, postImageName;
  destruct (truthy (trim (title st))), (truthy (trim (content st))); simpl;
  try destruct (selectedFile st) as [file|]; simpl;
  try destruct (post st) as [p|]; simpl;
  repeat match goal with
    | |- context [image_url ?p] =>
        let u := fresh "u" in destruct (image_url p) as [u|]; simpl
    | |- context [truthy ?u] => is_var u; destruct (truthy u); simpl
    | |- context [pop (split "/" ?u)] =>
        let n := fresh "n" in
        destruct (pop (split "/" u)) as [n|]; simpl
    | |- context [storageRemove c ?b ?l] =>
        destruct (storageRemove c b l) as [?|?]; simpl
    | |- context [storageUpload c ?b ?n ?f] =>
        destruct (storageUpload c b n f) as [[?|]|?]; simpl
    | |- context [truthy (getPublicUrl c ?b ?n)] =>
        destruct (truthy (getPublicUrl c b n)); simpl
    | |- context [updateRow c ?t ?i ?r] =>
        let rp := fresh "rp" in
        destruct (updateRow c t i r) as [rp|?]; simpl;
        [destruct (Data.error rp); simpl|]
    end.

(** X18.  When the title or the content of the edit form is empty or holds
    only white space, [handleSubmit] sends no request (no delete, no upload,
    no update): it only alerts, and the state is what it was. *)
Theorem edit_blank_submission_is_inert (c : Client) (postId : string) (st : State) :
  allChars isWhiteSpace (title st) = true
  \/ allChars isWhiteSpace (content st) = true ->
  final (handleSubmit c postId st) = st
  /\ log (handleSubmit c postId st)
     = [PreventDefault; Alert "Title and content are required!"].
Proof.
  intros H. unfold handleSubmit.
  assert (E : negb (truthy (trim (title st))) || negb (truthy (trim (content st)))
              = true).
  { destruct H as [H|H]; rewrite (trim_blank _ H); simpl;
      [reflexivity|apply orb_true_r]. }
  rewrite E. split; reflexivity.
Qed.

Lemma edit_blank_submission_witness :
  final (handleSubmit Examples.obliging "7" Examples.blankTitle) = Examples.blankTitle
  /\ log (handleSubmit Examples.obliging "7" Examples.blankTitle)
     = [PreventDefault; Alert "Title and content are required!"].
Proof.
  apply (edit_blank_submission_is_inert Examples.obliging "7" Examples.blankTitle).
  left. reflexivity.
Defined.

(** X19.  Whatever the client answers, [handleSubmit] of the edit page never
    inserts a row and sends at most one delete, one upload and one update;
    without a newly selected file it sends nothing to the object store. *)
Theorem edit_request_budget (c : Client) (postId : string) (st : State) :
  existsb isInsert (log (handleSubmit c postId st)) = false
  /\ List.length (filter isRemove (log (handleSubmit c postId st))) <= 1
  /\ List.length (filter isUpload (log (handleSubmit c postId st))) <= 1
  /\ List.length (filter isUpdate (log (handleSubmit c postId st))) <= 1
  /\ match selectedFile st with
     | Some _ => True
     | None =>
         existsb isRemove (log (handleSubmit c postId st)) = false
         /\ existsb isUpload (log (handleSubmit c postId st)) = false
     end.
Proof. edit_paths c st; repeat split; auto. Qed.

(** X20.  [handleSubmit] of the edit page changes nothing of the form but
    the updating flag: after an accepted submission the state is the one
    before with updating off (nothing is reset, the selected file stays),
    and after a refused one it is unchanged. *)
Theorem edit_submit_keeps_form (c : Client) (postId : string) (st : State) :
  final (handleSubmit c postId st)
  = if accepted st then setUpdating false st else st.
Proof. edit_paths c st; reflexivity. Qed.

(** X21.  When the stored image_url ends in a slash, replacing the picture
    sends no delete: the requests are the upload and, if it succeeded, the
    update. *)
Theorem edit_trailing_slash_skips_delete (c : Client) (postId : string)
        (st : State) (p : BlogPost) (base : string) (file : File) :
  accepted st = true ->
  post st = Some p ->
  image_url p = Some (base ++ "/") ->
  selectedFile st = Some file ->
  requests (log (handleSubmit c postId st)) =
    StorageUpload bucket (objectName c file) file
    :: (if uploadSucceeds c file
        then [RowUpdate table postId
                (updateFields c st
                   (Some (getPublicUrl c bucket (objectName c file)))
                   (Some (file_name file)))]
        else []).
Proof.
  intros Ha Hp Hu Hf. unfold handleSubmit, accepted in *.
  apply andb_true_iff in Ha as [Ha1 Ha2]. rewrite Ha1, Ha2; simpl.
  rewrite Hf. unfold postImageUrl. rewrite Hp, Hu.
  assert (D : deleteOldImage c (base ++ "/") = []).
  { unfold deleteOldImage.
    rewrite split_app_sep, pop_app by apply split_not_nil. reflexivity. }
  assert (R : (if truthy (base ++ "/") then deleteOldImage c (base ++ "/") else [])
              = []) by (rewrite D; now destruct (truthy (base ++ "/"))).
  rewrite R. unfold uploadSucceeds, uploadImage.
  destruct (storageUpload c bucket (objectName c file) file) as [[e|]|reason]; simpl;
    try reflexivity.
  destruct (truthy (getPublicUrl c bucket (objectName c file))); simpl;
    [|reflexivity].
  now rewrite updatePost_requests.
Qed.

Lemma edit_trailing_slash_witness :
  requests (log (handleSubmit Examples.obliging "9" Examples.replacingSlashPicture)) =
    [StorageUpload "blog-images" "1700000000000-4fzyo82mvyr.jpg" Examples.photo;
     RowUpdate "blog_posts" "9"
       (mkFields "Walk" "Hills" None
          (Some "https://cdn.example/storage/v1/object/public/blog-images/1700000000000-4fzyo82mvyr.jpg")
          (Some "new.jpg") "walk" Published (Some "2024-05-01T10:00:00.000Z"))].
Proof.
  apply (edit_trailing_slash_skips_delete Examples.obliging "9"
           Examples.replacingSlashPicture Examples.slashPicture
           "https://cdn.example/pictures" Examples.photo); reflexivity.
Defined.

(** X22.  Opening a post in the edit page and submitting the form as it was
    filled sends exactly one update of that post: title and content trimmed,
    a blank excerpt and empty picture fields as null, the status as stored,
    and the slug derived anew from the title (not the stored slug). *)
Theorem edit_fetch_then_submit (c : Client) (postId : string) (d : BlogPost) :
  selectSingle c (fetchPostQuery postId) = Resolved (mkReply (Some d) None) ->
  truthy (trim (Data.title d)) = true ->
  truthy (trim (Data.content d)) = true ->
  render (final (fetchPost c postId initial)) = Form d
  /\ requests (log (handleSubmit c postId (final (fetchPost c postId initial))))
     = [RowUpdate table postId
          (mkFields (trim (Data.title d)) (trim (Data.content d))
                    (orNull (Some (trim (orEmpty (Data.excerpt d)))))
                    (orNull (image_url d)) (orNull (image_name d))
                    (generateSlug (Data.title d)) (Data.status d)
                    (Some (isoNow c)))].
Proof.
  intros Hs Ht Hc. unfold fetchPost. rewrite Hs. simpl.
  split; [reflexivity|].
  unfold handleSubmit. simpl. rewrite Ht, Hc. simpl.
  now rewrite updatePost_requests.
Qed.

Lemma edit_fetch_then_submit_witness :
  render (final (fetchPost Examples.obliging "7" initial)) = Form Examples.illustrated
  /\ requests (log (handleSubmit Examples.obliging "7"
                      (final (fetchPost Examples.obliging "7" initial))))
     = [RowUpdate "blog_posts" "7"
          (mkFields "Trip" "Day one" None
             (Some "https://cdn.example/storage/v1/object/public/blog-images/old.png")
             (Some "holiday.png") "trip" Published
             (Some "2024-05-01T10:00:00.000Z"))].
Proof.
  apply (edit_fetch_then_submit Examples.obliging "7" Examples.illustrated);
    reflexivity.
Defined.

End EditFurther.

(** ** The picture fields the pages write *)

Section WrittenPictures.
Import Data.

Lemma orNull_twice (o : option string) : orNull (orNull o) = orNull o.
Proof. destruct o as [[|a s]|]; reflexivity. Qed.

Lemma orNull_truthy (s : string) : truthy s = true -> orNull (Some s) = Some s.
Proof. intros H. unfold orNull. simpl. now rewrite H. Qed.

Ltac picture_row :=
  unfold pictureFrom; simpl; split;
  [first [reflexivity | apply orNull_twice | apply orNull_truthy; assumption]
  |first [left; reflexivity | left; apply orNull_twice
         | right; eexists; split; reflexivity]].

Ltac picture_done :=
  repeat (apply Forall_cons; [first [exact I | picture_row]|]);
  apply Forall_nil.

Lemma add_written_pictures (c : Client) (a : AddPost.State) :
  Forall (fun ev => match written ev with
                    | Some row => pictureFrom (AddPost.selectedFile a) row
                    | None => True
                    end)
         (log (AddPost.handleSubmit c a)).
Proof.
  unfold AddPost.handleSubmit, AddPost.uploadImage, AddPost.insertPost.
  destruct (truthy (trim (AddPost.title a))),
           (truthy (trim (AddPost.content a))); simpl;
    try (repeat constructor; fail).
  destruct (AddPost.selectedFile a) as [file|]; simpl;
  repeat match goal with
    | |- context [storageUpload c ?b ?n ?f] =>
        destruct (storageUpload c b n f) as [[?|]|?]; simpl
    | |- context [truthy (getPublicUrl c ?b ?n)] =>
        let E := fresh "E" in
        destruct (truthy (getPublicUrl c b n)) eqn:E; simpl
    | |- context [insertRow c ?t ?r] =>
        let rp := fresh "rp" in
        destruct (insertRow c t r) as [rp|?]; simpl;
        [destruct (error rp); simpl;
         [|destruct (data rp) as [[|? ?]|]; simpl]|]
    end;
  picture_done.
Qed.

Lemma edit_written_pictures (c : Client) (postId : string) (e : EditPost.State) :
  Forall (fun ev => match written ev with
                    | Some row => pictureFrom (EditPost.selectedFile e) row
                    | None => True
                    end)
         (log (EditPost.handleSubmit c postId e)).
Proof.
  unfold EditPost.handleSubmit, EditPost.uploadImage, EditPost.updatePost,
    EditPost.deleteOldImage.
  destruct (truthy (trim (EditPost.title e))),
           (truthy (trim (EditPost.content e))); simpl;
    try (repeat constructor; fail).
  destruct (EditPost.selectedFile e) as [file|]; simpl;
  repeat match goal with
    | |- context [EditPost.postImageUrl e] =>
        let u := fresh "u" in destruct (EditPost.postImageUrl e) as [u|] eqn:?; simpl
    | |- context [if truthy ?u then _ else _] =>
        is_var u; destruct (truthy u); simpl
    | |- context [pop (split "/" ?u)] =>
        let n := fresh "n" in
        destruct (pop (split "/" u)) as [n|]; simpl
    | |- context [storageRemove c ?b ?l] =>
        destruct (storageRemove c b l) as [?|?]; simpl
    | |- context [storageUpload c ?b ?n ?f] =>
        destruct (storageUpload c b n f) as [[?|]|?]; simpl
    | |- context [truthy (getPublicUrl c ?b ?n)] =>
        let E := fresh "E" in
        destruct (truthy (getPublicUrl c b n)) eqn:E; simpl
    | |- context [updateRow c ?t ?i ?r] =>
        let rp := fresh "rp" in
        destruct (updateRow c t i r) as [rp|?]; simpl;
        [destruct (Data.error rp); simpl|]
    end;
  picture_done.
Qed.

(** X23.  Neither page ever writes the empty text as image_url: in every
    insert of the create page and every update of the edit page the field is
    null or a text that is not empty.  The same holds of image_name when the
    selected file, if there is one, has a name. *)
Theorem pages_never_write_empty_picture (c : Client) (postId : string)
        (a : AddPost.State) (e : EditPost.State) :
  Forall (fun ev => match written ev with
                    | Some row => orNull (f_image_url row) = f_image_url row
                    | None => True
                    end)
         (log (AddPost.handleSubmit c a) ++ log (EditPost.handleSubmit c postId e))
  /\ (match AddPost.selectedFile a with
      | Some file => truthy (file_name file) = true
      | None => True
      end ->
      match EditPost.selectedFile e with
      | Some file => truthy (file_name file) = true
      | None => True
      end ->
      Forall (fun ev => match written ev with
                        | Some row => orNull (f_image_name row) = f_image_name row
                        | None => True
                        end)
             (log (AddPost.handleSubmit c a)
              ++ log (EditPost.handleSubmit c postId e))).
Proof.
  pose proof (add_written_pictures c a) as Ha.
  pose proof (edit_written_pictures c postId e) as He.
  split.
  - apply Forall_app. split; [revert Ha|revert He]; apply Forall_impl;
      intros ev; destruct (written ev); [intros [H _]; exact H|auto
                                        |intros [H _]; exact H|auto].
  - intros Na Ne. apply Forall_app.
    split; [revert Ha|revert He]; apply Forall_impl; intros ev;
      (destruct (written ev) as [row|]; [|auto]);
      intros [_ [H|(file & Hf & Hn)]]; try exact H.
    + rewrite Hf in Na. rewrite Hn. now apply orNull_truthy.
    + rewrite Hf in Ne. rewrite Hn. now apply orNull_truthy.
Qed.

Lemma pages_never_write_empty_picture_witness :
  Forall (fun ev => match written ev with
                    | Some row => orNull (f_image_name row) = f_image_name row
                    | None => True
                    end)
         (log (AddPost.handleSubmit Examples.obliging Examples.newPostWithPhoto)
          ++ log (EditPost.handleSubmit Examples.obliging "7"
                    Examples.replacingPicture)).
Proof.
  destruct (pages_never_write_empty_picture Examples.obliging "7"
              Examples.newPostWithPhoto Examples.replacingPicture) as [_ H].
  apply H; reflexivity.
Defined.

End WrittenPictures.
